(** * A shallow embedding of the lnd shell commands and of the sorceror store

    Sources covered:
    - [qlnshell.go] (package main): the shell commands [FundChannel],
      [Resume], [Push], [CloseChannel] and [BreakChannel];
    - the sorceror database file (package sorceror): [AddDesc], [AddMsg],
      [CheckTxids], [I64tB] and [U32tB];
    - the wallet interface file (package qln): [UWallet], [GetUsePub],
      [GetPriv] and [GetElkremRoot].

    Go values are modelled as follows.  A [[]byte] or a byte array is a
    [list byte]; a slice that may be [nil] is an [option (list byte)] where
    the code tests for [nil].  Fixed-width integers are [Z] with the
    wrap-around of each conversion written out.  A Go [error] is a value of
    [error]; a function returning [(v, err)] returns a sum, a function
    returning only [err] returns an [option error] ([None] is [nil]).  The
    bolt database is a record of its three top-level buckets, each a finite
    map from keys to values. *)

From stdpp Require Import gmap strings list fin_maps.
From Stdlib Require Import ZArith Lia.
From Stdlib Require Strings.Byte Strings.Ascii.
Import Stdlib.Init.Byte.

#[local] Open Scope Z_scope.

(* ===================================================================== *)
(** * Bytes, slices and integers *)
(* ===================================================================== *)

#[global] Instance byte_eq_dec : EqDecision byte := Byte.byte_eq_dec.

Definition byte_of_N (n : N) : byte := default x00 (Byte.of_N n).

Lemma byte_of_to_N (b : byte) : byte_of_N (Byte.to_N b) = b.
Proof. unfold byte_of_N. now rewrite Byte.of_to_N. Qed.

#[global] Instance byte_countable : Countable byte :=
  inj_countable' Byte.to_N byte_of_N byte_of_to_N.

(** The Go conversion [byte(z)]: the low eight bits. *)
Definition byte_of_Z (z : Z) : byte := byte_of_N (Z.to_N (z mod 256)).

Definition Z_of_byte (b : byte) : Z := Z.of_N (Byte.to_N b).

(** Go conversions between integer types keep the low bits. *)
Definition to_uint32 (z : Z) : Z := z mod 2 ^ 32.
Definition to_uint64 (z : Z) : Z := z mod 2 ^ 64.
Definition to_int64 (z : Z) : Z := (z + 2 ^ 63) mod 2 ^ 64 - 2 ^ 63.

(** [make([]byte, n)]: n zero bytes. *)
Definition make_bytes (n : nat) : list byte := replicate n x00.

(** The builtin [copy(dst, src)]: the first [min (len dst) (len src)]
    elements of [dst] are overwritten; the result is the new content of
    [dst]. *)
Definition copy {A : Type} (dst src : list A) : list A :=
  take (length dst) src ++ drop (length src) dst.

(** [copy(buf[lo:hi], src)]: [copy] into a window of [buf]. *)
Definition copy_slice {A : Type} (buf : list A) (lo hi : nat) (src : list A)
  : list A :=
  take lo buf ++ copy (take (hi - lo) (drop lo buf)) src ++ drop hi buf.

(** [n] bytes of [z], most significant first, as [binary.BigEndian] lays
    them out. *)
Fixpoint be_bytes (n : nat) (z : Z) : list byte :=
  match n with
  | O => []
  | S n' => byte_of_Z (Z.shiftr z (8 * Z.of_nat n')) :: be_bytes n' z
  end.

(** The unsigned number a big-endian byte string denotes. *)
Definition be_value (bs : list byte) : Z :=
  fold_left (fun acc b => 256 * acc + Z_of_byte b) bs 0.

(** [wire.ShaHash] is a [[32]byte]. *)
Definition HashSize : nat := 32.

(* ===================================================================== *)
(** * Errors and outcomes *)
(* ===================================================================== *)

(** An operand of a format verb. *)
Inductive fmt_arg : Type :=
| ArgInt (z : Z)
| ArgBytes (bs : list byte).

Inductive num_error : Type := ErrSyntax | ErrRange.

(** Go [error] values.  [Errorf] keeps the format string and the operands of
    a [fmt.Errorf] call; [NumError] is [*strconv.NumError]; [BoltError] is
    one of bolt's error variables, named by its message; [LibError] stands
    for an error produced by a package that is not among the sources. *)
Inductive error : Type :=
| Errorf (format : string) (args : list fmt_arg)
| NumError (func num : string) (err : num_error)
| BoltError (msg : string)
| LibError (pkg : string) (code : N).

(** What a call does: it returns, or it panics. *)
Inductive outcome (A : Type) : Type :=
| Returns (a : A)
| Panics.
Arguments Returns {A} a.
Arguments Panics {A}.

(* ===================================================================== *)
(** * bolt buckets *)
(* ===================================================================== *)

(** A bucket holding plain values. *)
Abbreviation bucket := (gmap (list byte) (list byte)).

(** bolt's limits on keys and values. *)
Definition MaxKeySize : Z := 32768.
Definition MaxValueSize : Z := 2 ^ 31 - 2.

Definition ErrKeyRequired : error := BoltError "key required".
Definition ErrKeyTooLarge : error := BoltError "key too large".
Definition ErrValueTooLarge : error := BoltError "value too large".
Definition ErrBucketExists : error := BoltError "bucket already exists".
Definition ErrBucketNameRequired : error := BoltError "bucket name required".

(** [Bucket.Put] in a writable transaction, on a bucket of plain values: the
    key must not be empty, key and value must fit bolt's limits; an existing
    value is replaced. *)
Definition Put (b : bucket) (key value : list byte) : error + bucket :=
  if decide (key = []) then inl ErrKeyRequired
  else if decide (MaxKeySize < Z.of_nat (length key)) then inl ErrKeyTooLarge
  else if decide (MaxValueSize < Z.of_nat (length value))
       then inl ErrValueTooLarge
  else inr (<[key := value]> b).

(** [Bucket.Get]: [None] is the nil slice bolt returns for an absent key. *)
Definition Get (b : bucket) (key : list byte) : option (list byte) := b !! key.

(** [Bucket.CreateBucket] inside a bucket whose entries are all buckets. *)
Definition CreateBucket (b : gmap (list byte) bucket) (key : list byte)
  : error + gmap (list byte) bucket :=
  if decide (key = []) then inl ErrBucketNameRequired
  else match b !! key with
       | Some _ => inl ErrBucketExists
       | None => inr (<[key := ∅]> b)
       end.

(* ===================================================================== *)
(** * Package sorceror: the watchtower store *)
(* ===================================================================== *)

(** The store, by the layout the source documents: the index-to-PKH map, the
    channel data bucket with one sub-bucket per destination PKH, and the txid
    bucket.  A top-level bucket that was never created is [None] (the code
    tests [btx.Bucket(..) == nil]). *)
Record SorceDB : Type := mkSorceDB {
  pkm : option bucket;
  cda : option (gmap (list byte) bucket);
  txi : option bucket
}.

Definition set_pkm (v : option bucket) (db : SorceDB) : SorceDB :=
  mkSorceDB v (cda db) (txi db).
Definition set_cda (v : option (gmap (list byte) bucket)) (db : SorceDB)
  : SorceDB :=
  mkSorceDB (pkm db) v (txi db).
Definition set_txi (v : option bucket) (db : SorceDB) : SorceDB :=
  mkSorceDB (pkm db) (cda db) v.

(** Keys inside a channel bucket. *)
Definition KEYStatic : list byte := ["s"; "t"; "a"]%byte.
Definition KEYElkRcv : list byte := ["e"; "l"; "k"]%byte.
Definition KEYIdx : list byte := ["i"; "d"; "x"]%byte.

(** [DB.Update]: the function runs on a working copy of the store; the copy
    replaces the store only when the function returns nil.  On an error and
    on a panic the transaction is rolled back. *)
Definition Update (fn : SorceDB -> outcome (option error) * SorceDB)
    (db : SorceDB) : outcome (option error) * SorceDB :=
  match fn db with
  | (Returns None, db') => (Returns None, db')
  | (r, _) => (r, db)
  end.

(** [DB.View]: the function runs in a read-only transaction, which is always
    rolled back. *)
Definition View {A : Type} (fn : SorceDB -> outcome A * SorceDB)
    (db : SorceDB) : outcome A * SorceDB :=
  (fst (fn db), db).

(** The state message a client sends with each new state.  [DestPKHScript]
    is a [[20]byte], [Elk] a [wire.ShaHash], [Sig] a [[64]byte]; [Txid] is a
    byte array whose length [TxidLen] the declaration fixes. *)
Record StateMsg : Type := mkStateMsg {
  DestPKHScript : list byte;
  Txid : list byte;
  Elk : list byte;
  Sig : list byte
}.

(** The descriptor of a new channel.  [sd_ToBytes] is the serialisation that
    the method [ToBytes] returns. *)
Record SorceDescriptor : Type := mkSorceDescriptor {
  sd_DestPKHScript : list byte;
  sd_ElkZero : list byte;
  sd_ToBytes : list byte
}.

(** The elkrem receiver, as this package uses it.  Package elkrem is not
    among the sources, so its receiver is an interface here: the zero value
    of the struct, deserialisation (of a possibly nil slice), insertion of
    the next hash (which works in place: the receiver after the call is
    returned with the error), the index of the last hash, serialisation. *)
Class ElkremReceiver (R : Type) : Type := {
  elkr_zero : R;
  ElkremReceiverFromBytes : option (list byte) -> error + R;
  AddNext : R -> list byte -> option error * R;
  UpTo : R -> Z;
  ToBytes : R -> error + list byte
}.

Definition I64tB (i : Z) : list byte := be_bytes 8 (to_uint64 i).

Definition U32tB (i : Z) : list byte := be_bytes 4 (to_uint32 i).

Section Sorceror.
Context {R : Type} `{ElkremReceiver R}.
(** The length of the array [StateMsg.Txid]. *)
Variable TxidLen : nat.

(** A message whose arrays have the length their types fix. *)
Definition wf_StateMsg (sm : StateMsg) : Prop :=
  length (DestPKHScript sm) = 20%nat /\ length (Txid sm) = TxidLen /\
  length (Elk sm) = HashSize /\ length (Sig sm) = 64%nat.

(** [var sm StateMsg]. *)
Definition zero_StateMsg : StateMsg :=
  mkStateMsg (make_bytes 20) (make_bytes TxidLen) (make_bytes HashSize)
             (make_bytes 64).

(** The function [AddDesc] passes to [Update]. *)
Definition AddDesc_tx (sd : SorceDescriptor) (btx : SorceDB)
  : outcome (option error) * SorceDB :=
  match pkm btx with
  | None => (Returns (Some (Errorf "no PKHmap bucket" [])), btx)
  | Some mbkt =>
  let cIdxBytes := U32tB (to_uint32 (Z.of_nat (size mbkt))) in
  match cda btx with
  | None => (Returns (Some (Errorf "no Chandata bucket" [])), btx)
  | Some allChanbkt =>
  match CreateBucket allChanbkt (sd_DestPKHScript sd) with
  | inl err => (Returns (Some err), btx)
  | inr allChanbkt =>
  let cbkt : bucket := ∅ in
  let btx := set_cda (Some allChanbkt) btx in
  let sdBytes := sd_ToBytes sd in
  if decide (length sdBytes < 96)%nat then (Panics, btx) else
  let cbkt := match Put cbkt KEYStatic (take 96 sdBytes) with
              | inl _ => cbkt
              | inr cbkt' => cbkt'
              end in
  let btx := set_cda (Some (<[sd_DestPKHScript sd := cbkt]> allChanbkt)) btx in
  let elkr := snd (AddNext elkr_zero (sd_ElkZero sd)) in
  match ToBytes elkr with
  | inl err => (Returns (Some err), btx)
  | inr elkBytes =>
  match Put cbkt KEYElkRcv elkBytes with
  | inl err => (Returns (Some err), btx)
  | inr cbkt =>
  let btx := set_cda (Some (<[sd_DestPKHScript sd := cbkt]> allChanbkt)) btx in
  match Put cbkt KEYIdx cIdxBytes with
  | inl err => (Returns (Some err), btx)
  | inr cbkt =>
  let btx := set_cda (Some (<[sd_DestPKHScript sd := cbkt]> allChanbkt)) btx in
  match Put mbkt cIdxBytes (sd_DestPKHScript sd) with
  | inl err => (Returns (Some err), btx)
  | inr mbkt => (Returns None, set_pkm (Some mbkt) btx)
  end end end end end end end.

Definition AddDesc (sd : SorceDescriptor) (db : SorceDB)
  : outcome (option error) * SorceDB :=
  Update (AddDesc_tx sd) db.

(** The 74 bytes [AddMsg] composes: [make], then three [copy] calls. *)
Definition sigIdxBytes (cIdxBytes stateNumBytes sig : list byte)
  : list byte :=
  let buf := make_bytes 74 in
  let buf := copy_slice buf 0 4 cIdxBytes in
  let buf := copy_slice buf 4 10 (drop 2 stateNumBytes) in
  copy_slice buf 10 74 sig.

(** The function [AddMsg] passes to [Update]. *)
Definition AddMsg_tx (sm : StateMsg) (btx : SorceDB)
  : outcome (option error) * SorceDB :=
  match cda btx with
  | None => (Returns (Some (Errorf "no Chandata bucket" [])), btx)
  | Some allChanbkt =>
  match allChanbkt !! DestPKHScript sm with
  | None =>
      (Returns (Some (Errorf "no bucket for channel %x"
                             [ArgBytes (DestPKHScript sm)])), btx)
  | Some cbkt =>
  match ElkremReceiverFromBytes (Get cbkt KEYElkRcv) with
  | inl err => (Returns (Some err), btx)
  | inr elkr =>
  match AddNext elkr (Elk sm) with
  | (Some err, _) => (Returns (Some err), btx)
  | (None, elkr) =>
  let stateNumBytes := I64tB (to_int64 (UpTo elkr)) in
  match ToBytes elkr with
  | inl err => (Returns (Some err), btx)
  | inr elkBytes =>
  match Put cbkt KEYElkRcv elkBytes with
  | inl err => (Returns (Some err), btx)
  | inr cbkt =>
  let btx := set_cda (Some (<[DestPKHScript sm := cbkt]> allChanbkt)) btx in
  match Get cbkt KEYIdx with
  | None =>
      (Returns (Some (Errorf "channel %x has no index"
                             [ArgBytes (DestPKHScript sm)])), btx)
  | Some cIdxBytes =>
  match txi btx with
  | None => (Returns (Some (Errorf "no txid bucket" [])), btx)
  | Some txidbkt =>
  match Put txidbkt (take 8 (Txid sm))
            (sigIdxBytes cIdxBytes stateNumBytes (Sig sm)) with
  | inl err => (Returns (Some err), btx)
  | inr txidbkt => (Returns None, set_txi (Some txidbkt) btx)
  end end end end end end end end end.

Definition AddMsg (sm : StateMsg) (db : SorceDB)
  : outcome (option error) * SorceDB :=
  Update (AddMsg_tx sm) db.

(** The loop of [CheckTxids] over [inTxids]; [bkt] is the txid bucket, nil
    when it does not exist, in which case [bkt.Get] panics. *)
Fixpoint CheckTxids_loop (bkt : option bucket) (inTxids : list (list byte))
    (hitTxids : list StateMsg) : outcome (list StateMsg) :=
  match inTxids with
  | [] => Returns hitTxids
  | txid :: rest =>
      match bkt with
      | None => Panics
      | Some b =>
          match Get b (take 8 txid) with
          | Some idxsig =>
              let sm := zero_StateMsg in
              let sm := mkStateMsg (DestPKHScript sm)
                          (copy (Txid sm) (take 16 txid)) (Elk sm) (Sig sm) in
              CheckTxids_loop bkt rest (hitTxids ++ [sm])
          | None => CheckTxids_loop bkt rest hitTxids
          end
      end
  end.

(** The function [CheckTxids] passes to [View]; it returns nil and leaves
    its hits in [hitTxids]. *)
Definition CheckTxids_tx (inTxids : list (list byte)) (btx : SorceDB)
  : outcome (option error * list StateMsg) * SorceDB :=
  match CheckTxids_loop (txi btx) inTxids [] with
  | Returns hitTxids => (Returns (None, hitTxids), btx)
  | Panics => (Panics, btx)
  end.

(** [CheckTxids] returns [(hitTxids, nil)], or [(nil, err)] for an error of
    the transaction. *)
Definition CheckTxids (inTxids : list (list byte)) (db : SorceDB)
  : outcome (list StateMsg * option error) * SorceDB :=
  match View (CheckTxids_tx inTxids) db with
  | (Returns (Some err, _), db) => (Returns ([], Some err), db)
  | (Returns (None, hitTxids), db) => (Returns (hitTxids, None), db)
  | (Panics, db) => (Panics, db)
  end.
End Sorceror.

(* ===================================================================== *)
(** * strconv.ParseInt *)
(* ===================================================================== *)

Definition maxUint64 : Z := 2 ^ 64 - 1.

(** The value of a decimal digit. *)
Definition digit_of (c : Ascii.ascii) : option Z :=
  let n := Z.of_N (Ascii.N_of_ascii c) in
  if decide (48 <= n <= 57) then Some (n - 48) else None.

(** The digit loop of [strconv.ParseUint(s, 10, 32)], from accumulator [n]:
    the first character that is not a digit is a syntax error, the first
    digit that takes the value over [2^32 - 1] is a range error. *)
Fixpoint ParseUint_loop (s : string) (n : Z) : num_error + Z :=
  match s with
  | EmptyString => inr n
  | String c s' =>
      match digit_of c with
      | None => inl ErrSyntax
      | Some v =>
          if decide (maxUint64 / 10 + 1 <= n) then inl ErrRange
          else if decide (2 ^ 32 - 1 < 10 * n + v) then inl ErrRange
          else ParseUint_loop s' (10 * n + v)
      end
  end.

Definition ParseUint (s : string) : num_error + Z :=
  match s with
  | EmptyString => inl ErrSyntax
  | _ => ParseUint_loop s 0
  end.

(** [strconv.ParseInt(s, 10, 32)]: an optional sign (['+'] is 43, ['-'] is
    45), then [ParseUint]; the result must fit an int32. *)
Definition ParseInt (s : string) : error + Z :=
  match s with
  | EmptyString => inl (NumError "ParseInt" s ErrSyntax)
  | String c rest =>
      let code := Ascii.N_of_ascii c in
      let neg := bool_decide (code = 45%N) in
      let digits := if bool_decide (code = 43%N \/ code = 45%N)
                    then rest else s in
      match ParseUint digits with
      | inl ErrSyntax => inl (NumError "ParseInt" s ErrSyntax)
      | r =>
          let un := match r with inr n => n | inl _ => maxUint64 end in
          if negb neg && bool_decide (2 ^ 31 <= un)
          then inl (NumError "ParseInt" s ErrRange)
          else if neg && bool_decide (2 ^ 31 < un)
          then inl (NumError "ParseInt" s ErrRange)
          else inr (if neg then - un else un)
      end
  end.

(* ===================================================================== *)
(** * Package main: the shell commands of qlnshell.go *)
(* ===================================================================== *)

(** [wire.OutPoint]. *)
Record OutPoint : Type := mkOutPoint {
  op_Hash : list byte;
  op_Index : Z
}.

(** [btcec.PublicKey], by its compressed serialisation. *)
Record PublicKey : Type := mkPublicKey {
  SerializeCompressed : list byte
}.

(** What the shell takes from packages qln and lnutil, which are not among
    the sources: the types of transactions and of the two elkrem halves of a
    channel, the two message identifiers, and the serialisation of an
    outpoint into a [[36]byte]. *)
Class QlnEnv : Type := {
  MsgTx : Type;
  ElkSender : Type;
  ElkReceiver : Type;
  MSGID_POINTREQ : byte;
  MSGID_CLOSEREQ : byte;
  OutPointToBytes : OutPoint -> list byte;
  (** Modelled from the spec: [lnutil.OutPointToBytes] is not among the
      sources; the spec gives the serialised outpoint as 36 bytes. *)
  OutPointToBytes_length : forall op, length (OutPointToBytes op) = 36%nat
}.

(** The fields of [qln.Qchan] the shell reads or writes: [Op],
    [KeyGen.Step], [CloseData.Closed], [State.Delta], [ElkSnd], [ElkRcv]. *)
Record Qchan `{QlnEnv} : Type := mkQchan {
  Op : OutPoint;
  KeyGen_Step : list Z;
  Closed : bool;
  Delta : Z;
  ElkSnd : ElkSender;
  ElkRcv : ElkReceiver
}.

(** [qc.State.Delta = d]. *)
Definition set_Delta `{QlnEnv} (d : Z) (qc : Qchan) : Qchan :=
  mkQchan _ (Op qc) (KeyGen_Step qc) (Closed qc) d (ElkSnd qc) (ElkRcv qc).

(** The peer connection [LNode.RemoteCon]; [RemotePub] may be nil. *)
Record RemoteConn : Type := mkRemoteConn {
  RemotePub : option PublicKey
}.

(** [LNode.InProg], the channel being funded. *)
Record InFlightFund : Type := mkInFlightFund {
  PeerIdx : Z;
  ChanIdx : Z;
  Amt : Z;
  InitSend : Z
}.

(** The fields of the global [LNode] the shell reads or writes itself. *)
Record LnNode : Type := mkLnNode {
  RemoteCon : option RemoteConn;
  InProg : InFlightFund
}.

(** The public key of the connected peer, when
    [LNode.RemoteCon == nil || LNode.RemoteCon.RemotePub == nil] is false. *)
Definition connected_pub (nd : LnNode) : option PublicKey :=
  match RemoteCon nd with
  | None => None
  | Some con => RemotePub con
  end.

(** The calls the shell makes into the node, the wallet, the connection and
    the standard library, each with the type of what it gives back.  A call
    that works on a [*Qchan] in place gives the channel back. *)
Inductive callE `{QlnEnv} : Type -> Type :=
| PickUtxos (amt : Z) (ow : bool) : callE (option error)
| NextIdxForPeer (peerArr : list byte) : callE (error + Z * Z)
| ConnWrite (msg : list byte) : callE (option error)
| GetPeerIdx (pub : PublicKey) : callE (error + Z)
| GetQchanByIdx (peerIdx cIdx : Z) : callE (error + Qchan)
| SendNextMsg (qc : Qchan) : callE (option error)
| ReloadQchan (qc : Qchan) : callE (option error * Qchan)
| PushChannel (qc : Qchan) (amt : Z) : callE (option error * Qchan)
| SimpleCloseTx (qc : Qchan) : callE (error + MsgTx)
| SignSimpleClose (qc : Qchan) (tx : MsgTx) : callE (error + list byte)
| ElkSndAtIndex (e : ElkSender) (i : Z) : callE (error + list byte)
| ElkRcvAtIndex (e : ElkReceiver) (i : Z) : callE (error + list byte)
| SignBreakTx (qc : Qchan) : callE (error + MsgTx)
| PushTx (tx : MsgTx) : callE (option error)
| Printf (format : string) (args : list fmt_arg) : callE unit
| Sleep (milliseconds : Z) : callE unit.

(** A command: it returns, or it makes a call and goes on with the answer. *)
Inductive Prog `{QlnEnv} (A : Type) : Type :=
| Ret (a : A)
| Vis {X : Type} (e : callE X) (k : X -> Prog A).
Arguments Ret {_ A} a.
Arguments Vis {_ A X} e k.

Notation "'call' x <- e ;; k" := (Vis e (fun x => k))
  (at level 10, x pattern, e at level 99, k at level 200, only parsing).

(** A call with its answer. *)
Record logged `{QlnEnv} : Type := Logged {
  lg_type : Type;
  lg_call : callE lg_type;
  lg_resp : lg_type
}.
Arguments Logged {_ lg_type} lg_call lg_resp.

(** [exec p t a]: with the answers recorded in [t], [p] makes exactly the
    calls of [t], in order, and returns [a]. *)
Fixpoint exec `{QlnEnv} {A : Type} (p : Prog A) (t : list logged) (a : A)
  : Prop :=
  match p with
  | Ret a' => t = [] /\ a = a'
  | Vis e k => exists x t', t = Logged e x :: t' /\ exec (k x) t' a
  end.

(** An environment answers each call, knowing the calls made so far. *)
Definition oracle `{QlnEnv} : Type :=
  forall X : Type, callE X -> list logged -> X.

(** Running a command in an environment: the result and the calls made. *)
Fixpoint run `{QlnEnv} {A : Type} (o : oracle) (p : Prog A)
    (hist : list logged) : A * list logged :=
  match p with
  | Ret a => (a, hist)
  | Vis e k =>
      let x := o _ e hist in run o (k x) (hist ++ [Logged e x])
  end.

(** The messages written to the peer connection, in order. *)
Definition wire_of `{QlnEnv} (l : logged) : list (list byte) :=
  match lg_call l with
  | ConnWrite msg => [msg]
  | _ => []
  end.
Definition written `{QlnEnv} (t : list logged) : list (list byte) :=
  concat (map wire_of t).

(** The transactions handed to the wallet for broadcast, in order. *)
Definition pushed_of `{QlnEnv} (l : logged) : list MsgTx :=
  match lg_call l with
  | PushTx tx => [tx]
  | _ => []
  end.
Definition broadcast `{QlnEnv} (t : list logged) : list MsgTx :=
  concat (map pushed_of t).

Section Shell.
Context `{QlnEnv}.

(** [args[i]]. *)
Definition arg (i : nat) (args : list string) : string := nth i args ""%string.

Definition FundChannel (nd : LnNode) (args : list string)
  : Prog (option error * LnNode) :=
  if decide (length args < 2)%nat
  then Ret (Some (Errorf "need args: fund capacity initialSend" []), nd) else
  match connected_pub nd with
  | None => Ret (Some (Errorf "Not connected to anyone" []), nd)
  | Some remotePub =>
  if decide (PeerIdx (InProg nd) <> 0)
  then Ret (Some (Errorf "channel with peer %d not done yet"
                         [ArgInt (PeerIdx (InProg nd))]), nd) else
  match ParseInt (arg 0 args) with
  | inl err => Ret (Some err, nd)
  | inr cCap =>
  match ParseInt (arg 1 args) with
  | inl err => Ret (Some err, nd)
  | inr iSend =>
  if decide (iSend < 0 \/ cCap < 0)
  then Ret (Some (Errorf "Can't have negative send or capacity" []), nd) else
  if decide (cCap < 1000000)
  then Ret (Some (Errorf "Min channe capacity 1M sat" []), nd) else
  if decide (iSend > cCap)
  then Ret (Some (Errorf "Cant send %d in %d capacity channel"
                         [ArgInt iSend; ArgInt cCap]), nd) else
  call err <- PickUtxos cCap true ;;
  match err with
  | Some err => Ret (Some err, nd)
  | None =>
  let peerArr := copy (make_bytes 33) (SerializeCompressed remotePub) in
  call r <- NextIdxForPeer peerArr ;;
  match r with
  | inl err => Ret (Some err, nd)
  | inr (peerIdx, cIdx) =>
  let nd := mkLnNode (RemoteCon nd) (mkInFlightFund peerIdx cIdx cCap iSend) in
  call err <- ConnWrite [MSGID_POINTREQ] ;;
  Ret (err, nd)
  end end end end end.

Definition Resume (nd : LnNode) (args : list string) : Prog (option error) :=
  if decide (length args < 2)%nat
  then Ret (Some (Errorf "need args: fix peerIdx chanIdx" [])) else
  match connected_pub nd with
  | None => Ret (Some (Errorf "Not connected to anyone, can't fix\n" []))
  | Some remotePub =>
  match ParseInt (arg 0 args) with
  | inl err => Ret (Some err)
  | inr peerIdx64 =>
  match ParseInt (arg 1 args) with
  | inl err => Ret (Some err)
  | inr cIdx64 =>
  let peerIdx := to_uint32 peerIdx64 in
  let cIdx := to_uint32 cIdx64 in
  call r <- GetPeerIdx remotePub ;;
  match r with
  | inl err => Ret (Some err)
  | inr currentPeerIdx =>
  if decide (to_uint32 peerIdx <> currentPeerIdx)
  then Ret (Some (Errorf "Want to close with peer %d but connected to %d"
                         [ArgInt peerIdx; ArgInt currentPeerIdx])) else
  call _ <- Printf "fix channel (%d,%d)\n" [ArgInt peerIdx; ArgInt cIdx] ;;
  call r <- GetQchanByIdx peerIdx cIdx ;;
  match r with
  | inl err => Ret (Some err)
  | inr qc =>
  call err <- SendNextMsg qc ;;
  Ret err
  end end end end end.

(** The loop [for times > 0] of [Push]: [times] rounds, unless a call
    fails. *)
Fixpoint Push_loop (times : nat) (qc : Qchan) (amt : Z)
  : Prog (option error) :=
  match times with
  | O => Ret None
  | S times =>
      call r <- ReloadQchan qc ;;
      match r with
      | (Some err, _) => Ret (Some err)
      | (None, qc) =>
      call r <- PushChannel qc (to_uint32 amt) ;;
      match r with
      | (Some err, _) => Ret (Some err)
      | (None, qc) =>
      call _ <- Sleep 25 ;;
      Push_loop times qc amt
      end end
  end.

(** [Push] from the check of the connected peer on, once its arguments
    have passed validation. *)
Definition Push_checked (remotePub : PublicKey)
    (peerIdx64 cIdx64 amt times : Z) : Prog (option error) :=
  let peerIdx := to_uint32 peerIdx64 in
  let cIdx := to_uint32 cIdx64 in
  call r <- GetPeerIdx remotePub ;;
  match r with
  | inl err => Ret (Some err)
  | inr currentPeerIdx =>
  if decide (to_uint32 peerIdx <> currentPeerIdx)
  then Ret (Some (Errorf "Want to push to peer %d but connected to %d"
                         [ArgInt peerIdx; ArgInt currentPeerIdx])) else
  call _ <- Printf "push %d to (%d,%d) %d times\n"
                   [ArgInt amt; ArgInt peerIdx; ArgInt cIdx; ArgInt times] ;;
  call r <- GetQchanByIdx peerIdx cIdx ;;
  match r with
  | inl err => Ret (Some err)
  | inr qc =>
  if Closed qc
  then Ret (Some (Errorf "channel %d, %d is closed."
                         [ArgInt peerIdx; ArgInt cIdx64])) else
  Push_loop (Z.to_nat times) qc amt
  end end.

Definition Push (nd : LnNode) (args : list string) : Prog (option error) :=
  if decide (length args < 3)%nat
  then Ret (Some (Errorf "need args: push peerIdx chanIdx amt (times)" []))
  else
  match connected_pub nd with
  | None => Ret (Some (Errorf "Not connected to anyone, can't push\n" []))
  | Some remotePub =>
  match ParseInt (arg 0 args) with
  | inl err => Ret (Some err)
  | inr peerIdx64 =>
  match ParseInt (arg 1 args) with
  | inl err => Ret (Some err)
  | inr cIdx64 =>
  match ParseInt (arg 2 args) with
  | inl err => Ret (Some err)
  | inr amt =>
  match (if decide (3 < length args)%nat then ParseInt (arg 3 args)
         else (inr 1 : error + Z)) with
  | inl err => Ret (Some err)
  | inr times =>
  if decide (amt > 100000000 \/ amt < 1)
  then Ret (Some (Errorf "push %d, max push is 1 coin / 100000000"
                         [ArgInt amt])) else
  Push_checked remotePub peerIdx64 cIdx64 amt times
  end end end end end.

Definition CloseChannel (nd : LnNode) (args : list string)
  : Prog (option error) :=
  match connected_pub nd with
  | None => Ret (Some (Errorf "Not connected to anyone\n" []))
  | Some remotePub =>
  if decide (length args < 2)%nat
  then Ret (Some (Errorf "need args: cclose peerIdx chanIdx" [])) else
  match ParseInt (arg 0 args) with
  | inl err => Ret (Some err)
  | inr peerIdx64 =>
  match ParseInt (arg 1 args) with
  | inl err => Ret (Some err)
  | inr cIdx64 =>
  let peerIdx := to_uint32 peerIdx64 in
  let cIdx := to_uint32 cIdx64 in
  call r <- GetPeerIdx remotePub ;;
  match r with
  | inl err => Ret (Some err)
  | inr currentPeerIdx =>
  if decide (peerIdx <> currentPeerIdx)
  then Ret (Some (Errorf "Want to close with peer %d but connected to %d	"
                         [ArgInt peerIdx; ArgInt currentPeerIdx])) else
  call r <- GetQchanByIdx peerIdx cIdx ;;
  match r with
  | inl err => Ret (Some err)
  | inr qc =>
  call r <- SimpleCloseTx qc ;;
  match r with
  | inl err => Ret (Some err)
  | inr tx =>
  call r <- SignSimpleClose qc tx ;;
  match r with
  | inl err => Ret (Some err)
  | inr sig =>
  let opArr := OutPointToBytes (Op qc) in
  let msg := [MSGID_CLOSEREQ] in
  let msg := msg ++ opArr in
  let msg := msg ++ sig in
  call _ <- ConnWrite msg ;;
  Ret None
  end end end end end end end.

Definition BreakChannel (args : list string) : Prog (option error) :=
  if decide (length args < 2)%nat
  then Ret (Some (Errorf "need args: break peerIdx chanIdx" [])) else
  match ParseInt (arg 0 args) with
  | inl err => Ret (Some err)
  | inr peerIdx =>
  match ParseInt (arg 1 args) with
  | inl err => Ret (Some err)
  | inr cIdx =>
  call r <- GetQchanByIdx (to_uint32 peerIdx) (to_uint32 cIdx) ;;
  match r with
  | inl err => Ret (Some err)
  | inr qc =>
  call _ <- Printf "breaking (%d,%d)\n"
                   [ArgInt (nth 3 (KeyGen_Step qc) 0);
                    ArgInt (nth 4 (KeyGen_Step qc) 0)] ;;
  call r <- ElkSndAtIndex (ElkSnd qc) 0 ;;
  match r with
  | inl err => Ret (Some err)
  | inr z =>
  call _ <- Printf "elk send 0: %s\n" [ArgBytes z] ;;
  call r <- ElkRcvAtIndex (ElkRcv qc) 0 ;;
  match r with
  | inl err => Ret (Some err)
  | inr z =>
  call _ <- Printf "elk recv 0: %s\n" [ArgBytes z] ;;
  let qc := set_Delta 0 qc in
  call r <- SignBreakTx qc ;;
  match r with
  | inl err => Ret (Some err)
  | inr tx =>
  call err <- PushTx tx ;;
  Ret err
  end end end end end end.
End Shell.

(** ** What a trace shows *)

(** The call is a write to the connection that returned an error. *)
Definition write_failed `{QlnEnv} (l : logged) : Prop :=
  match lg_call l in callE X return X -> Prop with
  | ConnWrite _ => fun r => r <> None
  | _ => fun _ => False
  end (lg_resp l).

(** The channel a successful [GetQchanByIdx] gave. *)
Definition got_qchan `{QlnEnv} (l : logged) : option Qchan :=
  match lg_call l in callE X return X -> option Qchan with
  | GetQchanByIdx _ _ => fun r => match r with
                                  | inr qc => Some qc
                                  | inl _ => None
                                  end
  | _ => fun _ => None
  end (lg_resp l).

(** The signature a successful [SignSimpleClose] gave. *)
Definition got_sig `{QlnEnv} (l : logged) : option (list byte) :=
  match lg_call l in callE X return X -> option (list byte) with
  | SignSimpleClose _ _ => fun r => match r with
                                    | inr sig => Some sig
                                    | inl _ => None
                                    end
  | _ => fun _ => None
  end (lg_resp l).

(** The channels handed to [SignBreakTx], in order. *)
Definition break_signed_of `{QlnEnv} (l : logged) : list Qchan :=
  match lg_call l with
  | SignBreakTx qc => [qc]
  | _ => []
  end.
Definition break_signed `{QlnEnv} (t : list logged) : list Qchan :=
  concat (map break_signed_of t).

(** Modelled from the spec: [LNode.SignSimpleClose] is not among the
    sources; the spec gives the signature of a CLOSEREQ as 64 bytes
    ("CLOSEREQ: opcode | outpoint(36) | sig(64)").  A trace respects this
    when every signature [SignSimpleClose] returned in it has 64 bytes. *)
Definition close_sigs_64 `{QlnEnv} (t : list logged) : Prop :=
  forall l sig, In l t -> got_sig l = Some sig -> length sig = 64%nat.

(** The record the txid bucket holds under [key], if any. *)
Definition txid_record (db : SorceDB) (key : list byte) : option (list byte) :=
  match txi db with
  | Some txidbkt => Get txidbkt key
  | None => None
  end.

(** A message of [CheckTxids] that carries no channel, no hash and no
    signature: the three fields are as [var sm StateMsg] leaves them. *)
Definition blank_StateMsg (sm : StateMsg) : Prop :=
  DestPKHScript sm = make_bytes 20 /\ Elk sm = make_bytes HashSize /\
  Sig sm = make_bytes 64.

(** ** Views of the store *)

(** The bucket of the channel [pkh], if the channel is described. *)
Definition chan_bucket (db : SorceDB) (pkh : list byte) : option bucket :=
  match cda db with
  | Some allChanbkt => allChanbkt !! pkh
  | None => None
  end.

(** Every index stored under [KEYIdx] has four bytes. *)
Definition idx_wf (db : SorceDB) : Prop :=
  forall (pkh : list byte) (cbkt : bucket) (cIdxBytes : list byte),
    chan_bucket db pkh = Some cbkt ->
    Get cbkt KEYIdx = Some cIdxBytes ->
    length cIdxBytes = 4%nat.

(** The keys of the index-to-PKH map are the indices [0 .. n-1], for [n] the
    number of its entries, and [n] fits a uint32. *)
Definition pkm_dense (db : SorceDB) : Prop :=
  exists mbkt : bucket,
    pkm db = Some mbkt /\
    Z.of_nat (size mbkt) < 2 ^ 32 /\
    forall key : list byte,
      is_Some (mbkt !! key) <->
      exists i : Z, 0 <= i < Z.of_nat (size mbkt) /\ key = U32tB i.

(** The message [CheckTxids] builds for a txid it finds. *)
Definition hit_of (TxidLen : nat) (txid : list byte) : StateMsg :=
  mkStateMsg (make_bytes 20) (copy (make_bytes TxidLen) (take 16 txid))
             (make_bytes HashSize) (make_bytes 64).

(** ** More of what a trace shows *)

(** The name of the function called. *)
Definition call_name `{QlnEnv} {X : Type} (e : callE X) : string :=
  match e with
  | PickUtxos _ _ => "PickUtxos"
  | NextIdxForPeer _ => "NextIdxForPeer"
  | ConnWrite _ => "Write"
  | GetPeerIdx _ => "GetPeerIdx"
  | GetQchanByIdx _ _ => "GetQchanByIdx"
  | SendNextMsg _ => "SendNextMsg"
  | ReloadQchan _ => "ReloadQchan"
  | PushChannel _ _ => "PushChannel"
  | SimpleCloseTx _ => "SimpleCloseTx"
  | SignSimpleClose _ _ => "SignSimpleClose"
  | ElkSndAtIndex _ _ => "ElkSnd.AtIndex"
  | ElkRcvAtIndex _ _ => "ElkRcv.AtIndex"
  | SignBreakTx _ => "SignBreakTx"
  | PushTx _ => "PushTx"
  | Printf _ _ => "Printf"
  | Sleep _ => "Sleep"
  end.

(** The functions called, in order. *)
Definition names `{QlnEnv} (t : list logged) : list string :=
  map (fun l => call_name (lg_call l)) t.

(** The amounts handed to [PushChannel], in order. *)
Definition pushed_amount_of `{QlnEnv} (l : logged) : list Z :=
  match lg_call l with
  | PushChannel _ amt => [amt]
  | _ => []
  end.
Definition pushed_amounts `{QlnEnv} (t : list logged) : list Z :=
  concat (map pushed_amount_of t).

(** The amounts handed to [PickUtxos], in order. *)
Definition picked_amount_of `{QlnEnv} (l : logged) : list Z :=
  match lg_call l with
  | PickUtxos amt _ => [amt]
  | _ => []
  end.
Definition picked_amounts `{QlnEnv} (t : list logged) : list Z :=
  concat (map picked_amount_of t).

(** The peer index a successful [GetPeerIdx] gave. *)
Definition got_peer `{QlnEnv} (l : logged) : option Z :=
  match lg_call l in callE X return X -> option Z with
  | GetPeerIdx _ => fun r => match r with
                             | inr idx => Some idx
                             | inl _ => None
                             end
  | _ => fun _ => None
  end (lg_resp l).

(** The indices a successful [NextIdxForPeer] gave. *)
Definition got_next_idx `{QlnEnv} (l : logged) : option (Z * Z) :=
  match lg_call l in callE X return X -> option (Z * Z) with
  | NextIdxForPeer _ => fun r => match r with
                                 | inr idx => Some idx
                                 | inl _ => None
                                 end
  | _ => fun _ => None
  end (lg_resp l).

(** The transaction a successful [SignBreakTx] gave. *)
Definition got_break_tx `{QlnEnv} (l : logged) : option MsgTx :=
  match lg_call l in callE X return X -> option MsgTx with
  | SignBreakTx _ => fun r => match r with
                              | inr tx => Some tx
                              | inl _ => None
                              end
  | _ => fun _ => None
  end (lg_resp l).

(** What a write to the connection returned. *)
Definition write_result `{QlnEnv} (l : logged) : option (option error) :=
  match lg_call l in callE X return X -> option (option error) with
  | ConnWrite _ => fun r => Some r
  | _ => fun _ => None
  end (lg_resp l).

(** The call sequence of one round of the loop of [Push]. *)
Definition push_round : list string := ["ReloadQchan"; "PushChannel"; "Sleep"].

(* ===================================================================== *)
(** * Package qln: keys from the base wallet *)
(* ===================================================================== *)

(** [portxo.KeyGen]: the derivation path [Step], a [[5]uint32], and the
    fields this file does not touch. *)
Record KeyGen : Type := mkKeyGen {
  Step : list Z;
  KeyGen_rest : list byte
}.

(** The two methods of the interface [UWallet] that return keys; a nil
    pointer is [None].  The other methods are calls of the shell ([PushTx])
    or are not used in these sources. *)
Class UWallet (W : Type) : Type := {
  GetPub : W -> KeyGen -> option PublicKey;
  GetPriv : W -> KeyGen -> option (list byte)
}.

Section Wallet.
Context {W : Type} `{UWallet W}.
(** [nd.BaseWallet]. *)
Variable BaseWallet : W.
(** The constant [UseChannelElkrem] and [wire.DoubleSha256SH]. *)
Variable UseChannelElkrem : Z.
Variable DoubleSha256SH : list byte -> list byte.

(** [GetUsePub]: [k] is a copy of the caller's path; step 2 is overwritten;
    the method [SerializeCompressed] on a nil key panics. *)
Definition GetUsePub (k : KeyGen) (use : Z) : outcome (list byte) :=
  let k := mkKeyGen (<[2%nat := use]> (Step k)) (KeyGen_rest k) in
  match GetPub BaseWallet k with
  | None => Panics
  | Some pub => Returns (copy (make_bytes 33) (SerializeCompressed pub))
  end.

Definition GetPriv_nd (k : KeyGen) : option (list byte) :=
  GetPriv BaseWallet k.

Definition GetElkremRoot (k : KeyGen) : outcome (list byte) :=
  match GetUsePub k UseChannelElkrem with
  | Panics => Panics
  | Returns pubArr => Returns (DoubleSha256SH pubArr)
  end.
End Wallet.

(* ===================================================================== *)
(** * Concrete instances, to run the definitions *)
(* ===================================================================== *)

Module Testbed.

(** ** A receiver for the store

    An instance of the receiver interface: a chain in which every hash is
    derived from the hash that follows it.  The receiver keeps the number
    of hashes it holds and the last one; [AddNext] accepts the first hash,
    and afterwards only a hash from which the last one derives. *)
Record chain : Type := mkChain {
  ch_count : Z;
  ch_top : list byte
}.

Definition derive (h : list byte) : list byte :=
  map (fun b => byte_of_Z (Z_of_byte b + 1)) h.

Definition ErrChain : error := LibError "elkrem" 1.
Definition ErrShort : error := LibError "elkrem" 2.

Definition chain_AddNext (r : chain) (h : list byte) : option error * chain :=
  if decide (ch_count r = 0) then (None, mkChain 1 h)
  else if decide (derive h = ch_top r) then (None, mkChain (ch_count r + 1) h)
  else (Some ErrChain, r).

Definition chain_FromBytes (b : option (list byte)) : error + chain :=
  match b with
  | None => inl ErrShort
  | Some bs =>
      if decide (length bs < 8)%nat then inl ErrShort
      else inr (mkChain (be_value (take 8 bs)) (drop 8 bs))
  end.

Definition chain_ToBytes (r : chain) : error + list byte :=
  inr (be_bytes 8 (ch_count r) ++ ch_top r).

Definition chain_UpTo (r : chain) : Z :=
  if decide (ch_count r = 0) then 0 else ch_count r - 1.

#[global] Instance chain_receiver : ElkremReceiver chain := {
  elkr_zero := mkChain 0 [];
  ElkremReceiverFromBytes := chain_FromBytes;
  AddNext := chain_AddNext;
  UpTo := chain_UpTo;
  ToBytes := chain_ToBytes
}.

(** Three consecutive hashes of one chain: [h0] derives from [h1], [h1]
    from [h2]. *)
Definition h0 : list byte := replicate 32 x03.
Definition h1 : list byte := replicate 32 x02.
Definition h2 : list byte := replicate 32 x01.

(** A store whose three buckets exist and are empty. *)
Definition fresh_db : SorceDB := mkSorceDB (Some ∅) (Some ∅) (Some ∅).

Definition pkh0 : list byte := replicate 20 xaa.

Definition sd0 : SorceDescriptor :=
  mkSorceDescriptor pkh0 h0 (replicate 128 x11).

(** The store once the channel [pkh0] is described. *)
Definition db0 : SorceDB := snd (AddDesc (R:=chain) sd0 fresh_db).

(** Two txids that differ, with the same eight leading bytes. *)
Definition txidA : list byte := replicate 8 xab ++ replicate 24 x0a.
Definition txidB : list byte := replicate 8 xab ++ replicate 24 x0b.

Definition sigA : list byte := replicate 64 x51.
Definition sigB : list byte := replicate 64 x52.

(** The messages for the states after [h0]. *)
Definition smA : StateMsg := mkStateMsg pkh0 txidA h1 sigA.
Definition smB : StateMsg := mkStateMsg pkh0 txidB h2 sigB.

(** A message that skips [h1]. *)
Definition sm_skip : StateMsg := mkStateMsg pkh0 txidB h2 sigB.

(** The store after [smA], and after [smA] then [smB]. *)
Definition dbA : SorceDB := snd (AddMsg (R:=chain) smA db0).
Definition dbAB : SorceDB := snd (AddMsg (R:=chain) smB dbA).

(** ** An environment for the shell *)

Definition test_OutPointToBytes (op : OutPoint) : list byte :=
  copy (make_bytes 36) (op_Hash op ++ be_bytes 4 (op_Index op)).

Lemma test_OutPointToBytes_length (op : OutPoint) :
  length (test_OutPointToBytes op) = 36%nat.
Proof.
  unfold test_OutPointToBytes, copy, make_bytes.
  rewrite length_app, length_take, length_drop, !length_replicate. lia.
Qed.

#[global] Instance test_env : QlnEnv := {
  MsgTx := list byte;
  ElkSender := list byte;
  ElkReceiver := list byte;
  MSGID_POINTREQ := x30;
  MSGID_CLOSEREQ := x40;
  OutPointToBytes := test_OutPointToBytes;
  OutPointToBytes_length := test_OutPointToBytes_length
}.

Definition pub0 : PublicKey := mkPublicKey (x02 :: replicate 32 x07).

(** A node connected to [pub0], with no funding in progress. *)
Definition nd0 : LnNode :=
  mkLnNode (Some (mkRemoteConn (Some pub0))) (mkInFlightFund 0 0 0 0).

Definition op0 : OutPoint := mkOutPoint (replicate 32 xcd) 1.

(** A channel that is closed, with an update in flight. *)
Definition qc_closed : Qchan :=
  mkQchan _ op0 [0; 0; 0; 7; 3] true 500 (replicate 32 x0e) (replicate 32 x0f).

Definition tx0 : list byte := [xde; xad; xbe; xef].
Definition sig0 : list byte := replicate 64 x99.

(** An environment in which every call succeeds: the connected peer has
    index 7, every channel is [qc_closed], signing gives [tx0] and [sig0].
    [write_err] is what a write to the connection returns. *)
Definition answer (write_err : option error) : oracle :=
  fun X (e : callE X) _ =>
    match e in callE X return X with
    | PickUtxos _ _ => None
    | NextIdxForPeer _ => inr (7, 3)
    | ConnWrite _ => write_err
    | GetPeerIdx _ => inr 7
    | GetQchanByIdx _ _ => inr qc_closed
    | SendNextMsg _ => None
    | ReloadQchan qc => (None, qc)
    | PushChannel qc _ => (None, qc)
    | SimpleCloseTx _ => inr tx0
    | SignSimpleClose _ _ => inr sig0
    | ElkSndAtIndex e _ => inr e
    | ElkRcvAtIndex e _ => inr e
    | SignBreakTx _ => inr tx0
    | PushTx _ => None
    | Printf _ _ => tt
    | Sleep _ => tt
    end.

Definition ErrBrokenPipe : error := LibError "net" 32.

End Testbed.

Module Cases.

(** ** More stores, nodes and environments *)

(** A store whose channel [pkh0] has a receiver and no index. *)
Definition db_noidx : SorceDB :=
  mkSorceDB (Some ∅)
            (Some {[ Testbed.pkh0 := {[ KEYElkRcv := be_bytes 8 1 ++ Testbed.h0 ]} ]})
            (Some ∅).

(** A store without a txid bucket. *)
Definition db_notxi : SorceDB := mkSorceDB (Some ∅) (Some ∅) None.

(** A txid that was never stored and starts like [txidA]. *)
Definition txidC : list byte := replicate 8 xab ++ replicate 24 x0c.

(** A txid that starts differently. *)
Definition txidD : list byte := replicate 32 x0d.

(** A node without a connection. *)
Definition nd_off : LnNode := mkLnNode None (mkInFlightFund 0 0 0 0).

(** A node with a funding in progress with peer 7. *)
Definition nd_busy : LnNode :=
  mkLnNode (Some (mkRemoteConn (Some Testbed.pub0))) (mkInFlightFund 7 3 1000000 0).

(** An open channel. *)
Definition qc_open : Qchan :=
  mkQchan _ Testbed.op0 [0; 0; 0; 7; 3] false 0
          (replicate 32 x0e) (replicate 32 x0f).

(** The environment [Testbed.answer] with every channel open. *)
Definition answer_open (write_err : option error) : oracle :=
  fun X (e : callE X) hist =>
    match e in callE X return X -> X with
    | GetQchanByIdx _ _ => fun _ => inr qc_open
    | _ => fun r => r
    end (Testbed.answer write_err X e hist).

End Cases.

(* ===================================================================== *)
(** * Facts about bytes and slices *)
(* ===================================================================== *)

Lemma length_be_bytes (n : nat) (z : Z) : length (be_bytes n z) = n.
Proof. induction n as [|n IH]; simpl; [reflexivity | now rewrite IH]. Qed.

Lemma Z_of_byte_of_Z (z : Z) : Z_of_byte (byte_of_Z z) = z mod 256.
Proof.
  unfold Z_of_byte, byte_of_Z, byte_of_N.
  assert (Hr : 0 <= z mod 256 < 256) by (apply Z.mod_pos_bound; lia).
  destruct (Byte.of_N (Z.to_N (z mod 256))) as [b|] eqn:Hb.
  - apply Byte.to_of_N in Hb. simpl. rewrite Hb. lia.
  - apply Byte.of_N_None_iff in Hb. lia.
Qed.

Lemma shiftr_mod_low (z m k : Z) :
  0 <= k -> k + 8 <= m ->
  Z.shiftr (z mod 2 ^ m) k mod 256 = Z.shiftr z k mod 256.
Proof.
  intros Hk Hm. change 256 with (2 ^ 8).
  apply Z.bits_inj'. intros i Hi.
  destruct (Z.ltb_spec i 8) as [Hlt | Hge].
  - rewrite !Z.mod_pow2_bits_low by lia.
    rewrite !Z.shiftr_spec by lia.
    apply Z.mod_pow2_bits_low. lia.
  - rewrite !Z.mod_pow2_bits_high by lia. reflexivity.
Qed.

Lemma be_bytes_mod (n : nat) (z m : Z) :
  8 * Z.of_nat n <= m -> be_bytes n (z mod 2 ^ m) = be_bytes n z.
Proof.
  induction n as [|n IH]; intros Hm; simpl; [reflexivity|].
  rewrite IH by lia. f_equal.
  unfold byte_of_Z. now rewrite shiftr_mod_low by lia.
Qed.

Lemma be_value_app (bs : list byte) (acc : Z) :
  fold_left (fun a b => 256 * a + Z_of_byte b) bs acc
  = acc * 256 ^ Z.of_nat (length bs) + be_value bs.
Proof.
  unfold be_value. revert acc.
  induction bs as [|b bs IH]; intros acc; simpl fold_left.
  - simpl. lia.
  - rewrite IH, (IH (256 * 0 + Z_of_byte b)).
    rewrite length_cons, Nat2Z.inj_succ, Z.pow_succ_r by lia. ring.
Qed.

(** [be_bytes n z] denotes the low [8 n] bits of [z]. *)
Lemma be_value_be_bytes (n : nat) (z : Z) :
  be_value (be_bytes n z) = z mod 2 ^ (8 * Z.of_nat n).
Proof.
  induction n as [|n IH].
  - simpl. now rewrite Z.mod_1_r.
  - cbn [be_bytes]. unfold be_value. cbn [fold_left].
    rewrite be_value_app, IH, length_be_bytes, Z_of_byte_of_Z.
    rewrite Z.shiftr_div_pow2 by lia.
    replace (8 * Z.of_nat (S n)) with (8 * Z.of_nat n + 8) by lia.
    set (k := 8 * Z.of_nat n). assert (0 <= k) by lia.
    replace (256 ^ Z.of_nat n) with (2 ^ k)
      by (unfold k; rewrite Z.pow_mul_r by lia; reflexivity).
    change 256 with (2 ^ 8).
    rewrite (Z.add_comm k 8), Z.pow_add_r by lia.
    rewrite (Z.mul_comm (2 ^ 8) (2 ^ k)).
    rewrite Z.rem_mul_r by lia. lia.
Qed.

Lemma to_uint64_to_int64 (z : Z) : to_uint64 (to_int64 z) = z mod 2 ^ 64.
Proof.
  unfold to_uint64, to_int64.
  rewrite Zminus_mod_idemp_l. f_equal. lia.
Qed.

(** The state number bytes [AddMsg] stores: the low six bytes of [UpTo]. *)
Lemma drop_I64tB (u : Z) : drop 2 (I64tB (to_int64 u)) = be_bytes 6 u.
Proof.
  unfold I64tB. rewrite to_uint64_to_int64.
  rewrite <- (be_bytes_mod 6 u 64) by lia. reflexivity.
Qed.

Lemma length_copy {A : Type} (dst src : list A) :
  length (copy dst src) = length dst.
Proof. unfold copy. rewrite length_app, length_take, length_drop. lia. Qed.

Lemma copy_same_length {A : Type} (dst src : list A) :
  length src = length dst -> copy dst src = src.
Proof.
  intros Hl. unfold copy.
  rewrite take_ge, drop_ge by lia. apply app_nil_r.
Qed.

(** [copy] into the window [mid] of [pre ++ mid ++ post]. *)
Lemma copy_slice_window {A : Type} (pre mid post src : list A) (lo hi : nat) :
  length pre = lo -> (lo + length mid = hi)%nat ->
  copy_slice (pre ++ mid ++ post) lo hi src = pre ++ copy mid src ++ post.
Proof.
  intros <- <-. unfold copy_slice.
  rewrite take_app_length, drop_app_length.
  replace (length pre + length mid - length pre)%nat with (length mid) by lia.
  rewrite take_app_length.
  now rewrite (app_assoc pre mid post), <- length_app, drop_app_length.
Qed.

(** The layout of the record: the index bytes copied into four bytes, the
    bytes of the state number from the third on, the signature. *)
Lemma sigIdxBytes_layout (cIdxBytes stateNumBytes sig : list byte) :
  length stateNumBytes = 8%nat -> length sig = 64%nat ->
  sigIdxBytes cIdxBytes stateNumBytes sig
  = copy (make_bytes 4) cIdxBytes ++ drop 2 stateNumBytes ++ sig.
Proof.
  intros Hs Hg. unfold sigIdxBytes.
  change (make_bytes 74) with ([] ++ make_bytes 4 ++ make_bytes 70).
  rewrite (copy_slice_window [] (make_bytes 4) (make_bytes 70)) by reflexivity.
  cbn [app].
  change (make_bytes 70) with (make_bytes 6 ++ make_bytes 64).
  rewrite (copy_slice_window _ (make_bytes 6) (make_bytes 64))
    by (rewrite ?length_copy; reflexivity).
  rewrite (copy_same_length (make_bytes 6))
    by (rewrite length_drop, Hs; reflexivity).
  rewrite <- (app_nil_r (make_bytes 64)), (app_assoc _ (drop 2 stateNumBytes)).
  rewrite (copy_slice_window _ (make_bytes 64) [])
    by (rewrite ?length_app, ?length_copy, ?length_drop, ?Hs; reflexivity).
  rewrite (copy_same_length (make_bytes 64)) by (rewrite Hg; reflexivity).
  now rewrite app_nil_r, <- app_assoc.
Qed.

(* ===================================================================== *)
(** * Facts about the watchtower store *)
(* ===================================================================== *)

Section SorcerorFacts.
Context {R : Type} `{ElkremReceiver R}.
Variable TxidLen : nat.

Lemma Put_inr (b b' : bucket) (key value : list byte) :
  Put b key value = inr b' -> b' = <[key := value]> b.
Proof. unfold Put. intros Hp. repeat case_decide; congruence. Qed.

Lemma Get_other_key (b : bucket) (k k' v : list byte) :
  k <> k' -> Get (<[k := v]> b) k' = Get b k'.
Proof. intros Hne. unfold Get. now apply lookup_insert_ne. Qed.

(** C1.  When the hash of a state message does not fit the receiver stored
    for its channel ([AddNext] returns an error), [AddMsg] returns that
    error and the store is what it was: the function passed to [Update]
    has written nothing when it returns, and [Update] keeps the store. *)
Theorem AddMsg_elkrem_failure_aborts (sm : StateMsg) (db : SorceDB)
    (allChanbkt : gmap (list byte) bucket) (cbkt : bucket)
    (elkr elkr' : R) (err : error) :
  cda db = Some allChanbkt ->
  allChanbkt !! DestPKHScript sm = Some cbkt ->
  ElkremReceiverFromBytes (Get cbkt KEYElkRcv) = inr elkr ->
  AddNext elkr (Elk sm) = (Some err, elkr') ->
  AddMsg_tx sm db = (Returns (Some err), db) /\
  AddMsg sm db = (Returns (Some err), db).
Proof.
  intros Hcda Hcb Hfrom Hadd.
  assert (Htx : AddMsg_tx sm db = (Returns (Some err), db)).
  { unfold AddMsg_tx. now rewrite Hcda, Hcb, Hfrom, Hadd. }
  split; [exact Htx |].
  unfold AddMsg, Update. now rewrite Htx.
Qed.

(** Whatever [AddMsg] returns other than nil, the store is unchanged. *)
Lemma AddMsg_failure_keeps_store (sm : StateMsg) (db : SorceDB) :
  fst (AddMsg sm db) <> Returns None -> snd (AddMsg sm db) = db.
Proof.
  unfold AddMsg, Update.
  destruct (AddMsg_tx sm db) as [[[e|]|] db1]; simpl; congruence.
Qed.

(** C4.  After a successful [AddMsg] the txid bucket holds, under the first
    eight bytes of the txid, a record of 74 bytes: the four bytes of the
    channel index, then the six low bytes, most significant first, of the
    receiver's [UpTo] after the insertion, then the 64 bytes of the
    signature.  The index bytes are the value stored under [KEYIdx]
    copied into four bytes, which is that value when it has four bytes. *)
Theorem AddMsg_record_layout (sm : StateMsg) (db db' : SorceDB) :
  length (Sig sm) = 64%nat ->
  AddMsg sm db = (Returns None, db') ->
  exists (allChanbkt : gmap (list byte) bucket) (cbkt : bucket)
         (elkr elkr' : R) (cIdxBytes : list byte) (txidbkt' : bucket)
         (rec : list byte),
    cda db = Some allChanbkt /\
    allChanbkt !! DestPKHScript sm = Some cbkt /\
    ElkremReceiverFromBytes (Get cbkt KEYElkRcv) = inr elkr /\
    AddNext elkr (Elk sm) = (None, elkr') /\
    Get cbkt KEYIdx = Some cIdxBytes /\
    txi db' = Some txidbkt' /\
    Get txidbkt' (take 8 (Txid sm)) = Some rec /\
    length rec = 74%nat /\
    take 4 rec = copy (make_bytes 4) cIdxBytes /\
    (length cIdxBytes = 4%nat -> take 4 rec = cIdxBytes) /\
    take 6 (drop 4 rec) = be_bytes 6 (UpTo elkr') /\
    drop 10 rec = Sig sm.
Proof.
  intros Hsig Hrun. unfold AddMsg, Update in Hrun.
  destruct (AddMsg_tx sm db) as [[[e|]|] db1] eqn:Htx; try discriminate.
  injection Hrun as ->. unfold AddMsg_tx in Htx.
  destruct (cda db) as [allChanbkt|] eqn:Hcda; [|discriminate].
  destruct (allChanbkt !! DestPKHScript sm) as [cbkt|] eqn:Hcb;
    [|discriminate].
  destruct (ElkremReceiverFromBytes (Get cbkt KEYElkRcv)) as [|elkr] eqn:Hfrom;
    [discriminate|].
  destruct (AddNext elkr (Elk sm)) as [[e|] elkr'] eqn:Hadd; [discriminate|].
  destruct (ToBytes elkr') as [|elkBytes] eqn:Hto; [discriminate|].
  destruct (Put cbkt KEYElkRcv elkBytes) as [|cbkt'] eqn:Hput; [discriminate|].
  apply Put_inr in Hput. subst cbkt'.
  rewrite Get_other_key in Htx by discriminate.
  destruct (Get cbkt KEYIdx) as [cIdxBytes|] eqn:Hidx; [|discriminate].
  cbn [txi set_cda] in Htx.
  destruct (txi db) as [txidbkt|] eqn:Htxi; [|discriminate].
  destruct (Put txidbkt _ _) as [|txidbkt'] eqn:Hput; [discriminate|].
  apply Put_inr in Hput. injection Htx as <-.
  set (c4 := copy (make_bytes 4) cIdxBytes).
  assert (Hc4 : length c4 = 4%nat) by (unfold c4; now rewrite length_copy).
  assert (Hrec : sigIdxBytes cIdxBytes (I64tB (to_int64 (UpTo elkr'))) (Sig sm)
                 = c4 ++ be_bytes 6 (UpTo elkr') ++ Sig sm).
  { rewrite sigIdxBytes_layout, drop_I64tB; [reflexivity | | assumption].
    apply length_be_bytes. }
  exists allChanbkt, cbkt, elkr, elkr', cIdxBytes, txidbkt',
         (c4 ++ be_bytes 6 (UpTo elkr') ++ Sig sm).
  repeat split; try assumption; try reflexivity.
  - subst txidbkt'. unfold Get. rewrite Hrec. apply lookup_insert_eq.
  - rewrite !length_app, Hc4, length_be_bytes, Hsig. reflexivity.
  - now rewrite take_app_length' by (symmetry; exact Hc4).
  - intros Hl. rewrite take_app_length' by (symmetry; exact Hc4).
    unfold c4. apply copy_same_length. now rewrite Hl.
  - rewrite drop_app_length' by (symmetry; exact Hc4).
    now rewrite take_app_length' by (now rewrite length_be_bytes).
  - rewrite app_assoc.
    now rewrite drop_app_length'
      by (now rewrite length_app, Hc4, length_be_bytes).
Qed.

(** A hit of [CheckTxids] takes nothing from the record it found. *)
Lemma CheckTxids_loop_blank (bkt : option bucket)
    (inTxids : list (list byte)) (acc hits : list StateMsg) :
  Forall blank_StateMsg acc ->
  CheckTxids_loop TxidLen bkt inTxids acc = Returns hits ->
  Forall blank_StateMsg hits.
Proof.
  revert acc. induction inTxids as [|txid rest IH]; intros acc Hacc Hloop.
  - simpl in Hloop. now injection Hloop as <-.
  - simpl in Hloop. destruct bkt as [b|]; [|discriminate].
    destruct (Get b (take 8 txid)) as [idxsig|].
    + apply IH in Hloop; [assumption|].
      apply Forall_app. split; [assumption|].
      constructor; [|constructor]. repeat split.
    + now apply IH in Hloop.
Qed.

(** The answer of [CheckTxids] does not depend on what the records hold,
    only on which keys the txid bucket has. *)
Lemma CheckTxids_loop_same_keys (b b' : bucket)
    (inTxids : list (list byte)) (acc : list StateMsg) :
  (forall k, is_Some (b !! k) <-> is_Some (b' !! k)) ->
  CheckTxids_loop TxidLen (Some b) inTxids acc
  = CheckTxids_loop TxidLen (Some b') inTxids acc.
Proof.
  intros Hkeys. revert acc.
  induction inTxids as [|txid rest IH]; intros acc; simpl; [reflexivity|].
  unfold Get. specialize (Hkeys (take 8 txid)).
  destruct (b !! take 8 txid) as [v|], (b' !! take 8 txid) as [v'|];
    try apply IH.
  - destruct Hkeys as [Hk _]. destruct Hk as [? ?]; [eauto | discriminate].
  - destruct Hkeys as [_ Hk]. destruct Hk as [? ?]; [eauto | discriminate].
Qed.

(** C7.  [CheckTxids] leaves the store as it found it, whatever the txids
    and whether it returns or panics; already the function it passes to
    [View] hands back the transaction's copy of the three buckets
    unchanged. *)
Theorem CheckTxids_store_unchanged (inTxids : list (list byte))
    (db : SorceDB) :
  snd (CheckTxids TxidLen inTxids db) = db /\
  snd (CheckTxids_tx TxidLen inTxids db) = db.
Proof.
  unfold CheckTxids, View, CheckTxids_tx.
  destruct (CheckTxids_loop TxidLen (txi db) inTxids []); simpl; auto.
Qed.
End SorcerorFacts.

(* ===================================================================== *)
(** * The store on concrete inputs *)
(* ===================================================================== *)

(** The channel [pkh0] is described with [h0]; a message carrying [h2]
    skips [h1], is refused, and leaves the store as it was after [h0]. *)
Lemma AddMsg_elkrem_failure_aborts_witness :
  AddMsg_tx Testbed.sm_skip Testbed.db0
    = (Returns (Some Testbed.ErrChain), Testbed.db0) /\
  AddMsg Testbed.sm_skip Testbed.db0
    = (Returns (Some Testbed.ErrChain), Testbed.db0).
Proof.
  eapply (AddMsg_elkrem_failure_aborts Testbed.sm_skip Testbed.db0);
    reflexivity.
Defined.

(** The record of the message [smA], added to the store [db0]. *)
Lemma AddMsg_record_layout_witness :
  exists (allChanbkt : gmap (list byte) bucket) (cbkt : bucket)
         (elkr elkr' : Testbed.chain) (cIdxBytes : list byte)
         (txidbkt' : bucket) (rec : list byte),
    cda Testbed.db0 = Some allChanbkt /\
    allChanbkt !! DestPKHScript Testbed.smA = Some cbkt /\
    ElkremReceiverFromBytes (Get cbkt KEYElkRcv) = inr elkr /\
    AddNext elkr (Elk Testbed.smA) = (None, elkr') /\
    Get cbkt KEYIdx = Some cIdxBytes /\
    txi Testbed.dbA = Some txidbkt' /\
    Get txidbkt' (take 8 (Txid Testbed.smA)) = Some rec /\
    length rec = 74%nat /\
    take 4 rec = copy (make_bytes 4) cIdxBytes /\
    (length cIdxBytes = 4%nat -> take 4 rec = cIdxBytes) /\
    take 6 (drop 4 rec) = be_bytes 6 (UpTo elkr') /\
    drop 10 rec = Sig Testbed.smA.
Proof.
  apply (AddMsg_record_layout Testbed.smA Testbed.db0 Testbed.dbA);
    reflexivity.
Defined.

(** C2, on the code.  Two state messages for one channel whose txids differ
    and share their first eight bytes are both accepted; the second record
    replaces the first under the shared key, so that the txid bucket holds
    one record, the second; and [CheckTxids] answers either txid with one
    message, which carries neither record. *)
Theorem AddMsg_collision_keeps_last (TxidLen : nat) :
  Testbed.txidA <> Testbed.txidB /\
  take 8 Testbed.txidA = take 8 Testbed.txidB /\
  AddMsg Testbed.smA Testbed.db0 = (Returns None, Testbed.dbA) /\
  AddMsg Testbed.smB Testbed.dbA = (Returns None, Testbed.dbAB) /\
  txid_record Testbed.dbA (take 8 Testbed.txidA)
    = Some (be_bytes 4 0 ++ be_bytes 6 1 ++ Testbed.sigA) /\
  txid_record Testbed.dbAB (take 8 Testbed.txidA)
    = Some (be_bytes 4 0 ++ be_bytes 6 2 ++ Testbed.sigB) /\
  (size <$> txi Testbed.dbAB) = Some 1%nat /\
  fst (CheckTxids TxidLen [Testbed.txidA] Testbed.dbAB)
    = Returns ([mkStateMsg (make_bytes 20)
                  (copy (make_bytes TxidLen) (take 16 Testbed.txidA))
                  (make_bytes HashSize) (make_bytes 64)], None) /\
  fst (CheckTxids TxidLen [Testbed.txidB] Testbed.dbAB)
    = Returns ([mkStateMsg (make_bytes 20)
                  (copy (make_bytes TxidLen) (take 16 Testbed.txidB))
                  (make_bytes HashSize) (make_bytes 64)], None).
Proof.
  repeat split; try reflexivity.
  intros Heq. discriminate Heq.
Qed.

(** C6, on the code.  The store holds the record of [smA], with its channel
    index, state number and signature, under the txid of [smA];
    [CheckTxids] on that txid returns one message, in which only sixteen
    bytes of the txid are set: channel, hash and signature are zero. *)
Theorem CheckTxids_hit_carries_no_record (TxidLen : nat) :
  txid_record Testbed.dbA (take 8 Testbed.txidA)
    = Some (be_bytes 4 0 ++ be_bytes 6 1 ++ Testbed.sigA) /\
  Testbed.sigA <> make_bytes 64 /\
  CheckTxids TxidLen [Testbed.txidA] Testbed.dbA
    = (Returns ([mkStateMsg (make_bytes 20)
                   (copy (make_bytes TxidLen) (take 16 Testbed.txidA))
                   (make_bytes HashSize) (make_bytes 64)], None),
       Testbed.dbA).
Proof.
  repeat split; try reflexivity.
  intros Heq. discriminate Heq.
Qed.

(* ===================================================================== *)
(** * Facts about the shell commands *)
(* ===================================================================== *)

Section ShellFacts.
Context `{QlnEnv}.

(** Case analysis on a command that was executed: every test and every
    answer of a call is split, down to the returns. *)
Ltac exec_cases H :=
  repeat (cbv zeta in H; cbn [exec] in H;
          match type of H with
          | exec (match ?x with _ => _ end) _ _ => destruct x eqn:?
          | _ /\ _ => destruct H as [-> ->]
          | exists _, _ =>
              let x := fresh "x" in
              let t' := fresh "t" in
              destruct H as (x & t' & -> & H)
          end).

(** A trace with no write to the connection has no failed write. *)
Ltac no_failed_write Hw :=
  exfalso; rewrite ?Exists_cons, Exists_nil in Hw; cbn in Hw; tauto.

(** What [run] computes is an execution in the sense of [exec]. *)
Lemma run_exec {A : Type} (o : oracle) (p : Prog A) (hist : list logged) :
  exists t, snd (run o p hist) = hist ++ t /\ exec p t (fst (run o p hist)).
Proof.
  revert hist. induction p as [a | X e k IH]; intros hist; simpl.
  - exists []. now rewrite app_nil_r.
  - destruct (IH (o X e hist) (hist ++ [Logged e (o X e hist)]))
      as (t & Ht & Hex).
    exists (Logged e (o X e hist) :: t). split.
    + rewrite Ht, <- app_assoc. reflexivity.
    + eauto.
Qed.

Lemma run_exec_nil {A : Type} (o : oracle) (p : Prog A) :
  exec p (snd (run o p [])) (fst (run o p [])).
Proof.
  destruct (run_exec o p []) as (t & Ht & Hex). simpl in Ht. now rewrite Ht.
Qed.

(** C10.  When the two arguments of [fund] parse to a capacity and an
    initial send with the capacity under 1000000, or one of them negative,
    or the send above the capacity, [FundChannel] returns an error and the
    node as it was, having made no call at all: no coins picked, no index
    taken for the peer, nothing written to the connection. *)
Theorem FundChannel_rejects_bad_amounts (nd : LnNode) (args : list string)
    (cCap iSend : Z) :
  ParseInt (arg 0 args) = inr cCap ->
  ParseInt (arg 1 args) = inr iSend ->
  cCap < 1000000 \/ iSend < 0 \/ cCap < 0 \/ cCap < iSend ->
  exists err : error,
    FundChannel nd args = Ret (Some err, nd) /\
    forall t r, exec (FundChannel nd args) t r -> t = [] /\ r = (Some err, nd).
Proof.
  intros Hc Hs Hbad.
  assert (Hret : exists err, FundChannel nd args = Ret (Some err, nd)).
  { unfold FundChannel.
    destruct (decide (length args < 2)%nat); [eauto|].
    destruct (connected_pub nd); [|eauto].
    destruct (decide (PeerIdx (InProg nd) <> 0)); [eauto|].
    rewrite Hc, Hs.
    destruct (decide (iSend < 0 \/ cCap < 0)); [eauto|].
    destruct (decide (cCap < 1000000)); [eauto|].
    destruct (decide (iSend > cCap)); [eauto|]. lia. }
  destruct Hret as [err Hret]. exists err. split; [exact Hret|].
  intros t r. rewrite Hret. now intros [-> ->].
Qed.

(** C5.  When the third argument of [push] parses to [amt]: if [amt] is
    under 1 or over 100000000, [Push] returns an error without having made
    any call; and once the argument count, the connection and the other
    arguments are in order, that error is the one about the amount, while
    an [amt] from 1 to 100000000 takes [Push] on to its next step, the
    look-up of the connected peer. *)
Theorem Push_validates_amount (nd : LnNode) (args : list string) (amt : Z) :
  ParseInt (arg 2 args) = inr amt ->
  ((amt < 1 \/ 100000000 < amt) ->
   exists err : error,
     Push nd args = Ret (Some err) /\
     forall t r, exec (Push nd args) t r -> t = [] /\ r = Some err) /\
  (forall (remotePub : PublicKey) (peerIdx64 cIdx64 times : Z),
     (3 <= length args)%nat ->
     connected_pub nd = Some remotePub ->
     ParseInt (arg 0 args) = inr peerIdx64 ->
     ParseInt (arg 1 args) = inr cIdx64 ->
     (if decide (3 < length args)%nat then ParseInt (arg 3 args)
      else inr 1) = inr times ->
     ((amt < 1 \/ 100000000 < amt) ->
      Push nd args
      = Ret (Some (Errorf "push %d, max push is 1 coin / 100000000"
                          [ArgInt amt]))) /\
     (1 <= amt <= 100000000 ->
      Push nd args = Push_checked remotePub peerIdx64 cIdx64 amt times /\
      exists k, Push nd args = Vis (GetPeerIdx remotePub) k)).
Proof.
  intros Hamt. split.
  - intros Hbad.
    assert (Hret : exists err, Push nd args = Ret (Some err)).
    { unfold Push.
      destruct (decide (length args < 3)%nat); [eauto|].
      destruct (connected_pub nd); [|eauto].
      destruct (ParseInt (arg 0 args)); [eauto|].
      destruct (ParseInt (arg 1 args)); [eauto|].
      rewrite Hamt.
      destruct (if decide (3 < length args)%nat then ParseInt (arg 3 args)
                else inr 1); [eauto|].
      destruct (decide (amt > 100000000 \/ amt < 1)); [eauto|]. lia. }
    destruct Hret as [err Hret]. exists err. split; [exact Hret|].
    intros t r. rewrite Hret. now intros [-> ->].
  - intros remotePub peerIdx64 cIdx64 times Hlen Hcon Hp Hc Ht.
    assert (Hpush : Push nd args
              = if decide (amt > 100000000 \/ amt < 1)
                then Ret (Some (Errorf "push %d, max push is 1 coin / 100000000"
                                       [ArgInt amt]))
                else Push_checked remotePub peerIdx64 cIdx64 amt times).
    { unfold Push.
      destruct (decide (length args < 3)%nat); [lia|].
      now rewrite Hcon, Hp, Hc, Hamt, Ht. }
    split; intros Hrange; rewrite Hpush;
      destruct (decide (amt > 100000000 \/ amt < 1)); try lia.
    + reflexivity.
    + split; [reflexivity|]. unfold Push_checked. eauto.
Qed.

(** C9.  In every execution of [CloseChannel] in which a write to the
    connection returned an error, [CloseChannel] returns nil. *)
Theorem CloseChannel_discards_write_error (nd : LnNode) (args : list string)
    (t : list logged) (r : option error) :
  exec (CloseChannel nd args) t r -> Exists write_failed t -> r = None.
Proof.
  intros Hex Hw. unfold CloseChannel in Hex.
  exec_cases Hex; try reflexivity; no_failed_write Hw.
Qed.

(** C8.  In every execution of [CloseChannel] that writes a message to the
    connection, with a 64-byte signature from [SignSimpleClose], the
    message is the only one written and is the byte [MSGID_CLOSEREQ], then
    the 36 bytes of [OutPointToBytes] of the channel's outpoint, then the
    64 bytes of the signature: 101 bytes. *)
Theorem CloseChannel_message (nd : LnNode) (args : list string)
    (t : list logged) (r : option error) (msg : list byte) :
  exec (CloseChannel nd args) t r ->
  In msg (written t) ->
  close_sigs_64 t ->
  exists (qc : Qchan) (sig : list byte),
    In (Some qc) (map got_qchan t) /\
    In (Some sig) (map got_sig t) /\
    written t = [msg] /\
    msg = [MSGID_CLOSEREQ] ++ OutPointToBytes (Op qc) ++ sig /\
    length (OutPointToBytes (Op qc)) = 36%nat /\
    length sig = 64%nat /\
    length msg = 101%nat /\
    take 1 msg = [MSGID_CLOSEREQ] /\
    take 36 (drop 1 msg) = OutPointToBytes (Op qc) /\
    drop 37 msg = sig.
Proof.
  intros Hex Hin Hsig. unfold CloseChannel in Hex.
  exec_cases Hex; cbn in Hin; try contradiction.
  destruct Hin as [<- | []].
  match goal with
  | _ : context [Logged (SignSimpleClose ?qc ?tx) (inr ?sig)] |- _ =>
      exists qc, sig;
      pose proof (OutPointToBytes_length (Op qc)) as Hop;
      assert (Hs : length sig = 64%nat)
        by (apply (Hsig (Logged (SignSimpleClose qc tx) (inr sig)) sig);
            [simpl; tauto | reflexivity])
  end.
  repeat split; cbn; try tauto; try assumption.
  - rewrite length_app. lia.
  - rewrite drop_0. now rewrite take_app_length' by (symmetry; exact Hop).
  - now rewrite drop_app_length' by (symmetry; exact Hop).
Qed.

(** [BreakChannel] never reads the [Closed] flag: whatever channel
    [GetQchanByIdx] gives, when the two hashes are found and the break
    transaction is signed, the transaction goes to the wallet's [PushTx],
    and the channel that was signed had its [Delta] set to zero. *)
Lemma BreakChannel_any_channel (args : list string) (peerIdx cIdx : Z)
    (qc : Qchan) (zs zr : list byte) (tx : MsgTx) (perr : option error) :
  (2 <= length args)%nat ->
  ParseInt (arg 0 args) = inr peerIdx ->
  ParseInt (arg 1 args) = inr cIdx ->
  exec (BreakChannel args)
    [Logged (GetQchanByIdx (to_uint32 peerIdx) (to_uint32 cIdx)) (inr qc);
     Logged (Printf "breaking (%d,%d)\n"
               [ArgInt (nth 3 (KeyGen_Step qc) 0);
                ArgInt (nth 4 (KeyGen_Step qc) 0)]) tt;
     Logged (ElkSndAtIndex (ElkSnd qc) 0) (inr zs);
     Logged (Printf "elk send 0: %s\n" [ArgBytes zs]) tt;
     Logged (ElkRcvAtIndex (ElkRcv qc) 0) (inr zr);
     Logged (Printf "elk recv 0: %s\n" [ArgBytes zr]) tt;
     Logged (SignBreakTx (set_Delta 0 qc)) (inr tx);
     Logged (PushTx tx) perr]
    perr.
Proof.
  intros Hlen Hp Hc. unfold BreakChannel.
  destruct (decide (length args < 2)%nat); [lia|].
  rewrite Hp, Hc. cbn. repeat (eexists; eexists; split; [reflexivity|]).
  split; reflexivity.
Qed.
End ShellFacts.

(* ===================================================================== *)
(** * The shell on concrete inputs *)
(* ===================================================================== *)

(** A capacity of 999999 is refused. *)
Lemma FundChannel_rejects_bad_amounts_witness :
  exists err : error,
    FundChannel Testbed.nd0 ["999999"; "0"]%string
      = Ret (Some err, Testbed.nd0) /\
    forall t r,
      exec (FundChannel Testbed.nd0 ["999999"; "0"]%string) t r ->
      t = [] /\ r = (Some err, Testbed.nd0).
Proof.
  apply (FundChannel_rejects_bad_amounts Testbed.nd0
           ["999999"; "0"]%string 999999 0);
    [reflexivity | reflexivity | lia].
Defined.

(** The amount 100000001 is parsed; what [Push] does with it follows. *)
Lemma Push_validates_amount_witness :
  ParseInt (arg 2 ["7"; "3"; "100000001"]%string) = inr 100000001 /\
  exists err : error,
    Push Testbed.nd0 ["7"; "3"; "100000001"]%string = Ret (Some err) /\
    forall t r,
      exec (Push Testbed.nd0 ["7"; "3"; "100000001"]%string) t r ->
      t = [] /\ r = Some err.
Proof.
  split; [reflexivity|].
  apply (Push_validates_amount Testbed.nd0
           ["7"; "3"; "100000001"]%string 100000001);
    [reflexivity | lia].
Defined.

(** The write of the close request fails; [CloseChannel] returns nil. *)
Lemma CloseChannel_discards_write_error_witness :
  fst (run (Testbed.answer (Some Testbed.ErrBrokenPipe))
           (CloseChannel Testbed.nd0 ["7"; "3"]%string) []) = None.
Proof.
  apply (CloseChannel_discards_write_error Testbed.nd0 ["7"; "3"]%string
           (snd (run (Testbed.answer (Some Testbed.ErrBrokenPipe))
                     (CloseChannel Testbed.nd0 ["7"; "3"]%string) []))).
  - apply run_exec_nil.
  - cbn. do 4 apply Exists_cons_tl. apply Exists_cons_hd. discriminate.
Defined.

(** The close request for the channel [qc_closed], signed [sig0]. *)
Lemma CloseChannel_message_witness :
  exists (qc : Qchan) (sig : list byte),
    In (Some qc)
       (map got_qchan
            (snd (run (Testbed.answer None)
                      (CloseChannel Testbed.nd0 ["7"; "3"]%string) []))) /\
    In (Some sig)
       (map got_sig
            (snd (run (Testbed.answer None)
                      (CloseChannel Testbed.nd0 ["7"; "3"]%string) []))) /\
    written (snd (run (Testbed.answer None)
                      (CloseChannel Testbed.nd0 ["7"; "3"]%string) []))
      = [[x40] ++ Testbed.test_OutPointToBytes Testbed.op0 ++ Testbed.sig0] /\
    [x40] ++ Testbed.test_OutPointToBytes Testbed.op0 ++ Testbed.sig0
      = [MSGID_CLOSEREQ] ++ OutPointToBytes (Op qc) ++ sig /\
    length (OutPointToBytes (Op qc)) = 36%nat /\
    length sig = 64%nat /\
    length ([x40] ++ Testbed.test_OutPointToBytes Testbed.op0 ++ Testbed.sig0)
      = 101%nat /\
    take 1 ([x40] ++ Testbed.test_OutPointToBytes Testbed.op0 ++ Testbed.sig0)
      = [MSGID_CLOSEREQ] /\
    take 36 (drop 1 ([x40] ++ Testbed.test_OutPointToBytes Testbed.op0
                           ++ Testbed.sig0))
      = OutPointToBytes (Op qc) /\
    drop 37 ([x40] ++ Testbed.test_OutPointToBytes Testbed.op0 ++ Testbed.sig0)
      = sig.
Proof.
  apply (CloseChannel_message Testbed.nd0 ["7"; "3"]%string
           (snd (run (Testbed.answer None)
                     (CloseChannel Testbed.nd0 ["7"; "3"]%string) []))
           (fst (run (Testbed.answer None)
                     (CloseChannel Testbed.nd0 ["7"; "3"]%string) []))).
  - apply run_exec_nil.
  - cbn. left. reflexivity.
  - intros l sig Hin Hgot. cbn in Hin.
    repeat (destruct Hin as [<- | Hin]; [cbn in Hgot; try discriminate |]);
      [| contradiction].
    injection Hgot as <-. reflexivity.
Defined.

(** C3, on the code.  The channel [qc_closed] has its [Closed] flag set and
    a [Delta] of 500.  [break] on it is not refused: [BreakChannel] returns
    nil, the break transaction is signed for the channel with its [Delta]
    set to zero, and the signed transaction is handed to the wallet for
    broadcast. *)
Theorem BreakChannel_breaks_closed_channel :
  Closed Testbed.qc_closed = true /\
  Delta Testbed.qc_closed = 500 /\
  fst (run (Testbed.answer None) (BreakChannel ["7"; "3"]%string) []) = None /\
  In (Some Testbed.qc_closed)
     (map got_qchan
          (snd (run (Testbed.answer None) (BreakChannel ["7"; "3"]%string) []))) /\
  break_signed
    (snd (run (Testbed.answer None) (BreakChannel ["7"; "3"]%string) []))
    = [set_Delta 0 Testbed.qc_closed] /\
  broadcast
    (snd (run (Testbed.answer None) (BreakChannel ["7"; "3"]%string) []))
    = [Testbed.tx0].
Proof.
  repeat split; cbn; first [reflexivity | left; reflexivity].
Qed.

(* ===================================================================== *)
(** * More about the watchtower store *)
(* ===================================================================== *)

Section SorcerorMore.
Context {R : Type} `{ElkremReceiver R}.
Variable TxidLen : nat.

Lemma Put_small (b : bucket) (key value : list byte) :
  key <> [] -> Z.of_nat (length key) <= MaxKeySize ->
  Z.of_nat (length value) <= MaxValueSize ->
  Put b key value = inr (<[key := value]> b).
Proof.
  intros Hk Hkl Hvl. unfold Put.
  repeat case_decide; try reflexivity; try contradiction; lia.
Qed.

Lemma Put_static (sdBytes : list byte) :
  Put ∅ KEYStatic (take 96 sdBytes)
  = inr (<[KEYStatic := take 96 sdBytes]> ∅).
Proof.
  apply Put_small; [discriminate | unfold MaxKeySize; simpl; lia |].
  unfold MaxValueSize. rewrite length_take. lia.
Qed.

Lemma U32tB_to_uint32 (z : Z) : U32tB (to_uint32 z) = U32tB z.
Proof. unfold U32tB, to_uint32. now rewrite Z.mod_mod by lia. Qed.

Lemma length_U32tB (z : Z) : length (U32tB z) = 4%nat.
Proof. apply length_be_bytes. Qed.

(** [Update] commits, or leaves the store as it was. *)
Lemma Update_cases (fn : SorceDB -> outcome (option error) * SorceDB)
    (db : SorceDB) :
  (exists db', Update fn db = (Returns None, db')) \/ snd (Update fn db) = db.
Proof.
  unfold Update. destruct (fn db) as [[[e|]|] db1]; cbn; eauto.
Qed.

(** The store a successful [AddDesc] leaves, written out. *)
Lemma AddDesc_success_inv (sd : SorceDescriptor) (db db' : SorceDB) :
  AddDesc sd db = (Returns None, db') ->
  exists (mbkt : bucket) (allChanbkt : gmap (list byte) bucket)
         (elkBytes : list byte),
    pkm db = Some mbkt /\ cda db = Some allChanbkt /\
    sd_DestPKHScript sd <> [] /\
    allChanbkt !! sd_DestPKHScript sd = None /\
    ToBytes (snd (AddNext elkr_zero (sd_ElkZero sd))) = inr elkBytes /\
    db' = mkSorceDB
            (Some (<[U32tB (Z.of_nat (size mbkt)) := sd_DestPKHScript sd]> mbkt))
            (Some (<[sd_DestPKHScript sd :=
                       <[KEYIdx := U32tB (Z.of_nat (size mbkt))]>
                         (<[KEYElkRcv := elkBytes]>
                            (<[KEYStatic := take 96 (sd_ToBytes sd)]> ∅))]>
                     allChanbkt))
            (txi db).
Proof.
  intros Hrun. unfold AddDesc, Update in Hrun.
  destruct (AddDesc_tx sd db) as [[[e|]|] db1] eqn:Htx; try discriminate.
  injection Hrun as ->. unfold AddDesc_tx in Htx.
  destruct (pkm db) as [mbkt|] eqn:Hpkm; [|discriminate].
  destruct (cda db) as [allChanbkt|] eqn:Hcda; [|discriminate].
  unfold CreateBucket in Htx.
  destruct (decide (sd_DestPKHScript sd = [])); [discriminate|].
  destruct (allChanbkt !! sd_DestPKHScript sd) eqn:Hfresh; [discriminate|].
  destruct (decide (length (sd_ToBytes sd) < 96)%nat); [discriminate|].
  rewrite Put_static in Htx.
  destruct (ToBytes _) as [|elkBytes] eqn:Hto; [discriminate|].
  destruct (Put _ KEYElkRcv elkBytes) as [|cbkt1] eqn:Hp1; [discriminate|].
  apply Put_inr in Hp1. subst cbkt1.
  destruct (Put _ KEYIdx _) as [|cbkt2] eqn:Hp2; [discriminate|].
  apply Put_inr in Hp2. subst cbkt2.
  destruct (Put mbkt _ _) as [|mbkt'] eqn:Hp3; [discriminate|].
  apply Put_inr in Hp3. subst mbkt'.
  injection Htx as <-. rewrite U32tB_to_uint32.
  exists mbkt, allChanbkt, elkBytes.
  repeat split; try assumption.
  unfold set_pkm, set_cda. cbn. rewrite !insert_insert_eq. reflexivity.
Qed.

(** The store a successful [AddMsg] leaves, written out. *)
Lemma AddMsg_success_inv (sm : StateMsg) (db db' : SorceDB) :
  AddMsg sm db = (Returns None, db') ->
  exists (allChanbkt : gmap (list byte) bucket) (cbkt : bucket)
         (elkr elkr' : R) (elkBytes cIdxBytes : list byte) (txidbkt : bucket),
    cda db = Some allChanbkt /\
    allChanbkt !! DestPKHScript sm = Some cbkt /\
    ElkremReceiverFromBytes (Get cbkt KEYElkRcv) = inr elkr /\
    AddNext elkr (Elk sm) = (None, elkr') /\
    ToBytes elkr' = inr elkBytes /\
    Get cbkt KEYIdx = Some cIdxBytes /\
    txi db = Some txidbkt /\
    db' = mkSorceDB
            (pkm db)
            (Some (<[DestPKHScript sm := <[KEYElkRcv := elkBytes]> cbkt]>
                     allChanbkt))
            (Some (<[take 8 (Txid sm) :=
                       sigIdxBytes cIdxBytes (I64tB (to_int64 (UpTo elkr')))
                                   (Sig sm)]> txidbkt)).
Proof.
  intros Hrun. unfold AddMsg, Update in Hrun.
  destruct (AddMsg_tx sm db) as [[[e|]|] db1] eqn:Htx; try discriminate.
  injection Hrun as ->. unfold AddMsg_tx in Htx.
  destruct (cda db) as [allChanbkt|] eqn:Hcda; [|discriminate].
  destruct (allChanbkt !! DestPKHScript sm) as [cbkt|] eqn:Hcb;
    [|discriminate].
  destruct (ElkremReceiverFromBytes (Get cbkt KEYElkRcv)) as [|elkr] eqn:Hfrom;
    [discriminate|].
  destruct (AddNext elkr (Elk sm)) as [[e|] elkr'] eqn:Hadd; [discriminate|].
  destruct (ToBytes elkr') as [|elkBytes] eqn:Hto; [discriminate|].
  destruct (Put cbkt KEYElkRcv elkBytes) as [|cbkt'] eqn:Hput; [discriminate|].
  apply Put_inr in Hput. subst cbkt'.
  rewrite Get_other_key in Htx by discriminate.
  destruct (Get cbkt KEYIdx) as [cIdxBytes|] eqn:Hidx; [|discriminate].
  cbn [txi set_cda] in Htx.
  destruct (txi db) as [txidbkt|] eqn:Htxi; [|discriminate].
  destruct (Put txidbkt _ _) as [|txidbkt'] eqn:Hput; [discriminate|].
  apply Put_inr in Hput. subst txidbkt'. injection Htx as <-.
  exists allChanbkt, cbkt, elkr, elkr', elkBytes, cIdxBytes, txidbkt.
  repeat split; try assumption; reflexivity.
Qed.

(** X1.  After a successful [AddDesc] the channel's bucket holds exactly
    three entries: under [KEYStatic] the first 96 bytes of the descriptor,
    under [KEYElkRcv] the serialised receiver holding [ElkZero], under
    [KEYIdx] the four bytes of the number of channels described before; the
    index map sends that index to the channel's PKH; the txid bucket and
    the other channels are as before.  The channel was not described
    before. *)
Theorem AddDesc_stores_channel (sd : SorceDescriptor) (db db' : SorceDB) :
  AddDesc sd db = (Returns None, db') ->
  exists (mbkt : bucket) (elkBytes : list byte),
    pkm db = Some mbkt /\
    chan_bucket db (sd_DestPKHScript sd) = None /\
    ToBytes (snd (AddNext elkr_zero (sd_ElkZero sd))) = inr elkBytes /\
    chan_bucket db' (sd_DestPKHScript sd)
      = Some (<[KEYIdx := U32tB (Z.of_nat (size mbkt))]>
                (<[KEYElkRcv := elkBytes]>
                   (<[KEYStatic := take 96 (sd_ToBytes sd)]> ∅))) /\
    pkm db' = Some (<[U32tB (Z.of_nat (size mbkt)) := sd_DestPKHScript sd]> mbkt) /\
    txi db' = txi db /\
    forall pkh : list byte,
      pkh <> sd_DestPKHScript sd -> chan_bucket db' pkh = chan_bucket db pkh.
Proof.
  intros Hrun. apply AddDesc_success_inv in Hrun.
  destruct Hrun as (mbkt & allChanbkt & elkBytes & Hpkm & Hcda & Hne & Hfresh
                    & Hto & ->).
  exists mbkt, elkBytes. unfold chan_bucket. rewrite Hcda. cbn.
  repeat split; try assumption; try reflexivity.
  - now rewrite lookup_insert_eq.
  - intros pkh Hp. now rewrite lookup_insert_ne by congruence.
Qed.

(** X2.  A channel is described once: after a successful [AddDesc], an
    [AddDesc] for the same PKH returns bolt's "bucket already exists" and
    changes nothing. *)
Theorem AddDesc_twice_refused (sd sd' : SorceDescriptor) (db db' : SorceDB) :
  AddDesc sd db = (Returns None, db') ->
  sd_DestPKHScript sd' = sd_DestPKHScript sd ->
  AddDesc sd' db' = (Returns (Some ErrBucketExists), db').
Proof.
  intros Hrun Hsame. apply AddDesc_success_inv in Hrun.
  destruct Hrun as (mbkt & allChanbkt & elkBytes & Hpkm & Hcda & Hne & Hfresh
                    & Hto & ->).
  unfold AddDesc, Update, AddDesc_tx, CreateBucket. cbn [pkm cda].
  rewrite Hsame.
  destruct (decide (sd_DestPKHScript sd = [])); [contradiction|].
  now rewrite lookup_insert_eq.
Qed.

(** X3.  [AddDesc] keeps the indices well formed: when every stored channel
    index has four bytes, so it is after [AddDesc], whatever it returns. *)
Theorem AddDesc_keeps_idx_wf (sd : SorceDescriptor) (db : SorceDB) :
  idx_wf db -> idx_wf (snd (AddDesc sd db)).
Proof.
  intros Hwf.
  destruct (Update_cases (AddDesc_tx sd) db) as [[db' Hrun] | Hsame];
    [| unfold AddDesc; now rewrite Hsame].
  fold (AddDesc sd db) in Hrun. rewrite Hrun. cbn [snd].
  apply AddDesc_success_inv in Hrun.
  destruct Hrun as (mbkt & allChanbkt & elkBytes & Hpkm & Hcda & Hne & Hfresh
                    & Hto & ->).
  intros pkh cbkt cIdxBytes Hcb Hget. unfold chan_bucket in Hcb. cbn in Hcb.
  destruct (decide (pkh = sd_DestPKHScript sd)) as [-> | Hp].
  - rewrite lookup_insert_eq in Hcb. injection Hcb as <-.
    unfold Get in Hget. rewrite lookup_insert_eq in Hget.
    injection Hget as <-. apply length_U32tB.
  - rewrite lookup_insert_ne in Hcb by congruence.
    apply (Hwf pkh cbkt cIdxBytes); [|assumption].
    unfold chan_bucket. now rewrite Hcda.
Qed.

(** X4.  [AddMsg] keeps the indices well formed. *)
Theorem AddMsg_keeps_idx_wf (sm : StateMsg) (db : SorceDB) :
  idx_wf db -> idx_wf (snd (AddMsg sm db)).
Proof.
  intros Hwf.
  destruct (Update_cases (AddMsg_tx sm) db) as [[db' Hrun] | Hsame];
    [| unfold AddMsg; now rewrite Hsame].
  fold (AddMsg sm db) in Hrun. rewrite Hrun. cbn [snd].
  apply AddMsg_success_inv in Hrun.
  destruct Hrun as (allChanbkt & cbkt & elkr & elkr' & elkBytes & cIdx
                    & txidbkt & Hcda & Hcb & _ & _ & _ & Hidx & _ & ->).
  intros pkh cbkt' cIdxBytes Hcb' Hget. unfold chan_bucket in Hcb'.
  cbn in Hcb'.
  destruct (decide (pkh = DestPKHScript sm)) as [-> | Hp].
  - rewrite lookup_insert_eq in Hcb'. injection Hcb' as <-.
    rewrite Get_other_key in Hget by discriminate.
    apply (Hwf (DestPKHScript sm) cbkt cIdxBytes); [|assumption].
    unfold chan_bucket. now rewrite Hcda.
  - rewrite lookup_insert_ne in Hcb' by congruence.
    apply (Hwf pkh cbkt' cIdxBytes); [|assumption].
    unfold chan_bucket. now rewrite Hcda.
Qed.

(** X5.  What a successful [AddMsg] touches: in the channel's bucket only
    the entry [KEYElkRcv], which now holds the serialised receiver after the
    insertion; in the txid bucket only the entry under the first eight bytes
    of the txid.  The index map and the other channels are as before. *)
Theorem AddMsg_frame (sm : StateMsg) (db db' : SorceDB) :
  AddMsg sm db = (Returns None, db') ->
  exists (cbkt cbkt' : bucket) (elkr elkr' : R) (elkBytes : list byte),
    chan_bucket db (DestPKHScript sm) = Some cbkt /\
    chan_bucket db' (DestPKHScript sm) = Some cbkt' /\
    ElkremReceiverFromBytes (Get cbkt KEYElkRcv) = inr elkr /\
    AddNext elkr (Elk sm) = (None, elkr') /\
    ToBytes elkr' = inr elkBytes /\
    Get cbkt' KEYElkRcv = Some elkBytes /\
    (forall key, key <> KEYElkRcv -> Get cbkt' key = Get cbkt key) /\
    pkm db' = pkm db /\
    (forall pkh, pkh <> DestPKHScript sm ->
                 chan_bucket db' pkh = chan_bucket db pkh) /\
    (forall key, key <> take 8 (Txid sm) ->
                 txid_record db' key = txid_record db key).
Proof.
  intros Hrun. apply AddMsg_success_inv in Hrun.
  destruct Hrun as (allChanbkt & cbkt & elkr & elkr' & elkBytes & cIdx
                    & txidbkt & Hcda & Hcb & Hfrom & Hadd & Hto & Hidx & Htxi
                    & ->).
  exists cbkt, (<[KEYElkRcv := elkBytes]> cbkt), elkr, elkr', elkBytes.
  unfold chan_bucket, txid_record, Get. rewrite Hcda, Htxi. cbn.
  repeat split; try assumption.
  - apply lookup_insert_eq.
  - apply lookup_insert_eq.
  - intros key Hk. now apply lookup_insert_ne.
  - intros pkh Hp. now rewrite lookup_insert_ne by congruence.
  - intros key Hk. now rewrite lookup_insert_ne by congruence.
Qed.

(** X6.  A channel bucket without an index: [AddMsg] has already written
    the new receiver into the transaction's copy when it finds the index
    missing, and returns an error; the store itself keeps the old
    receiver, because [Update] rolls the transaction back. *)
Theorem AddMsg_no_index_rolls_back (sm : StateMsg) (db : SorceDB)
    (cbkt : bucket) (elkr elkr' : R) (elkBytes : list byte) :
  chan_bucket db (DestPKHScript sm) = Some cbkt ->
  ElkremReceiverFromBytes (Get cbkt KEYElkRcv) = inr elkr ->
  AddNext elkr (Elk sm) = (None, elkr') ->
  ToBytes elkr' = inr elkBytes ->
  Z.of_nat (length elkBytes) <= MaxValueSize ->
  Get cbkt KEYIdx = None ->
  chan_bucket (snd (AddMsg_tx sm db)) (DestPKHScript sm)
    = Some (<[KEYElkRcv := elkBytes]> cbkt) /\
  AddMsg sm db
    = (Returns (Some (Errorf "channel %x has no index"
                             [ArgBytes (DestPKHScript sm)])), db).
Proof.
  intros Hcb Hfrom Hadd Hto Hlen Hidx. unfold chan_bucket in Hcb.
  destruct (cda db) as [allChanbkt|] eqn:Hcda; [|discriminate].
  assert (Htx : AddMsg_tx sm db
                = (Returns (Some (Errorf "channel %x has no index"
                                         [ArgBytes (DestPKHScript sm)])),
                   set_cda (Some (<[DestPKHScript sm :=
                                      <[KEYElkRcv := elkBytes]> cbkt]>
                                    allChanbkt)) db)).
  { unfold AddMsg_tx. rewrite Hcda, Hcb, Hfrom, Hadd, Hto.
    rewrite Put_small
      by (first [discriminate | assumption | unfold MaxKeySize; simpl; lia]).
    rewrite Get_other_key by discriminate. now rewrite Hidx. }
  split.
  - rewrite Htx. unfold chan_bucket. cbn. apply lookup_insert_eq.
  - unfold AddMsg, Update. now rewrite Htx.
Qed.

(** X7.  A state message for a channel that was never described is refused
    and nothing is stored. *)
Theorem AddMsg_unknown_channel (sm : StateMsg) (db : SorceDB)
    (allChanbkt : gmap (list byte) bucket) :
  cda db = Some allChanbkt ->
  chan_bucket db (DestPKHScript sm) = None ->
  AddMsg sm db
    = (Returns (Some (Errorf "no bucket for channel %x"
                             [ArgBytes (DestPKHScript sm)])), db).
Proof.
  intros Hcda Hcb. unfold chan_bucket in Hcb. rewrite Hcda in Hcb.
  unfold AddMsg, Update, AddMsg_tx. now rewrite Hcda, Hcb.
Qed.

(** The loop of [CheckTxids] on an existing bucket. *)
Lemma CheckTxids_loop_filter (b : bucket) (inTxids : list (list byte))
    (acc : list StateMsg) :
  CheckTxids_loop TxidLen (Some b) inTxids acc
  = Returns (acc ++ map (hit_of TxidLen)
                        (filter (fun txid => is_Some (b !! take 8 txid))
                                inTxids)).
Proof.
  revert acc. induction inTxids as [|txid rest IH]; intros acc.
  - simpl. now rewrite app_nil_r.
  - cbn [CheckTxids_loop]. unfold Get. rewrite filter_cons.
    destruct (b !! take 8 txid) as [v|] eqn:Hv.
    + rewrite decide_True by eauto. rewrite IH, <- app_assoc. reflexivity.
    + rewrite decide_False by (intros [? ?]; discriminate). apply IH.
Qed.

(** X8.  With the txid bucket in place, [CheckTxids] returns, in the order
    of its input and with repetitions, one message for every txid whose
    first eight bytes are a key of the bucket; the message holds the first
    sixteen bytes of that txid and nothing of the record. *)
Theorem CheckTxids_hits (inTxids : list (list byte)) (db : SorceDB)
    (txidbkt : bucket) :
  txi db = Some txidbkt ->
  CheckTxids TxidLen inTxids db
  = (Returns (map (hit_of TxidLen)
                  (filter (fun txid => is_Some (txidbkt !! take 8 txid))
                          inTxids), None), db).
Proof.
  intros Htxi. unfold CheckTxids, View, CheckTxids_tx.
  now rewrite Htxi, CheckTxids_loop_filter.
Qed.

(** X9.  Without a txid bucket [CheckTxids] panics as soon as it has a txid
    to look up, and returns no hits for an empty input. *)
Theorem CheckTxids_no_bucket (inTxids : list (list byte)) (db : SorceDB) :
  txi db = None ->
  CheckTxids TxidLen inTxids db
  = (match inTxids with
     | [] => Returns ([], None)
     | _ :: _ => Panics
     end, db).
Proof.
  intros Htxi. unfold CheckTxids, View, CheckTxids_tx. rewrite Htxi.
  destruct inTxids; reflexivity.
Qed.

(** X10.  After a successful [AddMsg], [CheckTxids] reports every txid that
    starts with the eight bytes under which the record was stored: the txid
    of the message, and any other txid with that prefix. *)
Theorem AddMsg_then_CheckTxids (sm : StateMsg) (db db' : SorceDB)
    (txid : list byte) :
  AddMsg sm db = (Returns None, db') ->
  take 8 txid = take 8 (Txid sm) ->
  CheckTxids TxidLen [txid] db'
  = (Returns ([hit_of TxidLen txid], None), db').
Proof.
  intros Hrun Hpre. apply AddMsg_success_inv in Hrun.
  destruct Hrun as (allChanbkt & cbkt & elkr & elkr' & elkBytes & cIdx
                    & txidbkt & _ & _ & _ & _ & _ & _ & _ & ->).
  unfold CheckTxids, View, CheckTxids_tx. cbn [txi].
  rewrite CheckTxids_loop_filter.
  rewrite filter_cons, Hpre, lookup_insert_eq.
  rewrite decide_True by eauto. reflexivity.
Qed.
End SorcerorMore.

Section SorcerorIndex.
Context {R : Type} `{ElkremReceiver R}.

Lemma be_value_U32tB (i : Z) : be_value (U32tB i) = i mod 2 ^ 32.
Proof.
  unfold U32tB, to_uint32. rewrite be_value_be_bytes.
  change (8 * Z.of_nat 4) with 32. now rewrite Z.mod_mod by lia.
Qed.

Lemma U32tB_inj (i j : Z) :
  0 <= i < 2 ^ 32 -> 0 <= j < 2 ^ 32 -> U32tB i = U32tB j -> i = j.
Proof.
  intros Hi Hj Heq. apply (f_equal be_value) in Heq.
  rewrite !be_value_U32tB in Heq.
  now rewrite !Z.mod_small in Heq by assumption.
Qed.

(** X11.  [U32tB] and [I64tB] give four and eight bytes, most significant
    first: read back as a number they give the argument modulo [2^32] and
    modulo [2^64]; so [U32tB] loses nothing of a uint32, and [I64tB] nothing
    of an int64. *)
Theorem U32tB_I64tB_decode (i : Z) :
  length (U32tB i) = 4%nat /\ be_value (U32tB i) = i mod 2 ^ 32 /\
  length (I64tB i) = 8%nat /\ be_value (I64tB i) = i mod 2 ^ 64 /\
  to_int64 (be_value (I64tB i)) = to_int64 i.
Proof.
  assert (H64 : be_value (I64tB i) = i mod 2 ^ 64).
  { unfold I64tB, to_uint64. rewrite be_value_be_bytes.
    change (8 * Z.of_nat 8) with 64. now rewrite Z.mod_mod by lia. }
  split; [| split; [| split; [| split]]].
  - apply length_be_bytes.
  - apply be_value_U32tB.
  - apply length_be_bytes.
  - exact H64.
  - rewrite H64. unfold to_int64. f_equal.
    rewrite <- (Zplus_mod_idemp_l i). reflexivity.
Qed.

(** X12.  The state number in a record is the receiver's [UpTo] modulo
    [2^48]: of the eight bytes [I64tB] gives, [AddMsg] keeps the last six. *)
Theorem AddMsg_state_number (sm : StateMsg) (db db' : SorceDB) :
  length (Sig sm) = 64%nat ->
  AddMsg sm db = (Returns None, db') ->
  exists (cbkt : bucket) (elkr elkr' : R) (rec : list byte),
    chan_bucket db (DestPKHScript sm) = Some cbkt /\
    ElkremReceiverFromBytes (Get cbkt KEYElkRcv) = inr elkr /\
    AddNext elkr (Elk sm) = (None, elkr') /\
    txid_record db' (take 8 (Txid sm)) = Some rec /\
    be_value (take 6 (drop 4 rec)) = UpTo elkr' mod 2 ^ 48.
Proof.
  intros Hsig Hrun. apply AddMsg_success_inv in Hrun.
  destruct Hrun as (allChanbkt & cbkt & elkr & elkr' & elkBytes & cIdx
                    & txidbkt & Hcda & Hcb & Hfrom & Hadd & _ & _ & _ & ->).
  exists cbkt, elkr, elkr',
    (sigIdxBytes cIdx (I64tB (to_int64 (UpTo elkr'))) (Sig sm)).
  unfold chan_bucket, txid_record, Get. rewrite Hcda. cbn [cda txi].
  split; [assumption |]. split; [assumption |]. split; [assumption |].
  split.
  - apply lookup_insert_eq.
  - rewrite sigIdxBytes_layout, drop_I64tB
      by first [apply length_be_bytes | assumption].
    rewrite drop_app_length' by (now rewrite length_copy).
    rewrite take_app_length' by (now rewrite length_be_bytes).
    apply be_value_be_bytes.
Qed.

(** X13.  While the index map is dense (its keys are the indices below its
    size), the index [AddDesc] assigns is a new key: no entry of the map is
    replaced, the map grows by one entry, and it is dense again unless it
    has reached [2^32] entries. *)
Theorem AddDesc_fresh_index (sd : SorceDescriptor) (db db' : SorceDB)
    (mbkt : bucket) :
  pkm_dense db ->
  pkm db = Some mbkt ->
  AddDesc sd db = (Returns None, db') ->
  mbkt !! U32tB (Z.of_nat (size mbkt)) = None /\
  (exists mbkt' : bucket,
     pkm db' = Some mbkt' /\ size mbkt' = S (size mbkt) /\
     mbkt' !! U32tB (Z.of_nat (size mbkt)) = Some (sd_DestPKHScript sd) /\
     forall key v, mbkt !! key = Some v -> mbkt' !! key = Some v) /\
  (Z.of_nat (size mbkt) + 1 < 2 ^ 32 -> pkm_dense db').
Proof.
  intros (m & Hm & Hsize & Hdense) Hpkm Hrun.
  rewrite Hpkm in Hm. injection Hm as <-.
  apply AddDesc_success_inv in Hrun.
  destruct Hrun as (mbkt0 & allChanbkt & elkBytes & Hpkm0 & _ & _ & _ & _ & ->).
  rewrite Hpkm in Hpkm0. injection Hpkm0 as <-.
  set (n := Z.of_nat (size mbkt)) in *.
  assert (Hfresh : mbkt !! U32tB n = None).
  { destruct (mbkt !! U32tB n) as [v|] eqn:Hv; [|reflexivity].
    destruct (proj1 (Hdense (U32tB n)) (ex_intro _ v Hv)) as (i & Hi & Heq).
    apply U32tB_inj in Heq; lia. }
  split; [exact Hfresh|]. split.
  - exists (<[U32tB n := sd_DestPKHScript sd]> mbkt). cbn [pkm].
    repeat split.
    + now apply map_size_insert_None.
    + apply lookup_insert_eq.
    + intros key v Hv. rewrite lookup_insert_ne; [assumption|].
      intros <-. congruence.
  - intros Hroom. exists (<[U32tB n := sd_DestPKHScript sd]> mbkt). cbn [pkm].
    rewrite map_size_insert_None by assumption.
    rewrite Nat2Z.inj_succ. fold n.
    repeat split; [lia | |].
    + intros Hsome. destruct (decide (key = U32tB n)) as [-> | Hne].
      * exists n. split; [lia | reflexivity].
      * rewrite lookup_insert_ne in Hsome by congruence.
        destruct (proj1 (Hdense key) Hsome) as (i & Hi & ->).
        exists i. split; [lia | reflexivity].
    + intros (i & Hi & ->).
      destruct (decide (i = n)) as [-> | Hne].
      * rewrite lookup_insert_eq. eauto.
      * rewrite lookup_insert_ne.
        -- apply Hdense. exists i. split; [lia | reflexivity].
        -- intros Heq. apply U32tB_inj in Heq; lia.
Qed.
End SorcerorIndex.

(* ===================================================================== *)
(** * More about the shell commands *)
(* ===================================================================== *)

(** Case analysis on an executed command, down to its returns. *)
Ltac split_exec H :=
  repeat (cbv zeta in H; cbn [exec] in H;
          match type of H with
          | exec (match ?x with _ => _ end) _ _ => destruct x eqn:?
          | _ /\ _ =>
              let Hres := fresh "Hres" in
              destruct H as [-> Hres]; try subst
          | exists _, _ =>
              let x := fresh "x" in
              let t' := fresh "t" in
              destruct H as (x & t' & -> & H)
          end).

Section ShellMore.
Context `{QlnEnv}.

Lemma ParseUint_loop_nonneg (s : string) (n m : Z) :
  0 <= n -> ParseUint_loop s n = inr m -> 0 <= m.
Proof.
  revert n. induction s as [|c s IH]; intros n Hn Hp; simpl in Hp.
  - now injection Hp as <-.
  - unfold digit_of in Hp. cbv zeta in Hp.
    destruct (decide (48 <= Z.of_N (Ascii.N_of_ascii c) <= 57)) as [Hd|];
      [|discriminate].
    repeat case_decide; try discriminate.
    apply IH in Hp; [assumption | lia].
Qed.

(** A parsed argument fits an int32. *)
Lemma ParseInt_range (s : string) (z : Z) :
  ParseInt s = inr z -> - 2 ^ 31 <= z < 2 ^ 31.
Proof.
  unfold ParseInt. destruct s as [|c rest]; [discriminate|]. cbv zeta.
  set (digits := if bool_decide _ then rest else String c rest).
  destruct (ParseUint digits) as [[|]|n] eqn:Hu.
  - discriminate.
  - destruct (bool_decide (Ascii.N_of_ascii c = 45%N)); cbn; discriminate.
  - assert (Hn : 0 <= n).
    { unfold ParseUint in Hu. destruct digits; [discriminate|].
      eapply ParseUint_loop_nonneg; [|exact Hu]. lia. }
    destruct (bool_decide (Ascii.N_of_ascii c = 45%N)); cbn [negb andb];
      case_bool_decide; try discriminate; intros [= <-]; lia.
Qed.

(** X14.  Without a connected peer (no connection, or a connection without
    a remote key) [FundChannel], [Resume], [Push] and [CloseChannel] return
    an error without making any call, whatever their arguments. *)
Theorem not_connected_no_calls (nd : LnNode) (args : list string) :
  connected_pub nd = None ->
  (exists e, FundChannel nd args = Ret (Some e, nd)) /\
  (exists e, Resume nd args = Ret (Some e)) /\
  (exists e, Push nd args = Ret (Some e)) /\
  (exists e, CloseChannel nd args = Ret (Some e)).
Proof.
  intros Hcon. unfold FundChannel, Resume, Push, CloseChannel. rewrite Hcon.
  repeat split; try destruct (decide _); eauto.
Qed.

(** X15.  While a funding is in progress ([InProg.PeerIdx] is not zero)
    [FundChannel] returns an error, makes no call and leaves the node as it
    is. *)
Theorem FundChannel_in_progress_refused (nd : LnNode) (args : list string) :
  PeerIdx (InProg nd) <> 0 ->
  exists e, FundChannel nd args = Ret (Some e, nd).
Proof.
  intros Hbusy. unfold FundChannel.
  destruct (decide (length args < 2)%nat); [eauto|].
  destruct (connected_pub nd); [|eauto].
  destruct (decide (PeerIdx (InProg nd) <> 0)); [eauto | contradiction].
Qed.

(** X16.  Whenever [FundChannel] writes to the connection, it writes the
    one byte [MSGID_POINTREQ] and nothing else; before that it asked
    [PickUtxos] for the capacity, which is at least 1000000 and fits an
    int32, with an initial send between zero and the capacity; the node it
    leaves has [InProg] set to the indices [NextIdxForPeer] gave and to
    these two amounts; and what it returns is what the write returned, so
    that after a failed write [InProg] stays set. *)
Theorem FundChannel_sends_pointreq (nd nd' : LnNode) (args : list string)
    (t : list logged) (err : option error) :
  exec (FundChannel nd args) t (err, nd') ->
  written t <> [] ->
  exists cCap iSend peerIdx cIdx : Z,
    ParseInt (arg 0 args) = inr cCap /\
    ParseInt (arg 1 args) = inr iSend /\
    1000000 <= cCap < 2 ^ 31 /\ 0 <= iSend <= cCap /\
    picked_amounts t = [cCap] /\
    In (Some (peerIdx, cIdx)) (map got_next_idx t) /\
    written t = [[MSGID_POINTREQ]] /\
    In (Some err) (map write_result t) /\
    nd' = mkLnNode (RemoteCon nd) (mkInFlightFund peerIdx cIdx cCap iSend).
Proof.
  intros Hex Hw. unfold FundChannel in Hex.
  remember (err, nd') as r eqn:Hr.
  split_exec Hex; cbn in Hw; try contradiction.
  match goal with
  | Hp : (_, _) = (_, _) |- _ => injection Hp as -> ->
  end.
  match goal with
  | Hc : ParseInt (arg 0 args) = inr ?c, Hs : ParseInt (arg 1 args) = inr ?s
    |- _ =>
      pose proof (ParseInt_range _ _ Hc); pose proof (ParseInt_range _ _ Hs);
      exists c, s
  end.
  match goal with
  | |- context [Logged (NextIdxForPeer _) (inr (?p, ?c))] => exists p, c
  end.
  cbn. repeat split; try reflexivity; try lia; tauto.
Qed.

(** The loop of [Push]: its pushes all carry the amount converted to
    uint32. *)
Lemma Push_loop_amounts (n : nat) (qc : Qchan) (amt : Z)
    (t : list logged) (r : option error) :
  exec (Push_loop n qc amt) t r ->
  Forall (fun a => a = to_uint32 amt) (pushed_amounts t).
Proof.
  revert qc t. induction n as [|n IH]; intros qc t Hex.
  - destruct Hex as [-> _]. constructor.
  - cbn [Push_loop] in Hex.
    destruct Hex as ([[e|] qc1] & t1 & -> & Hex);
      [destruct Hex as [-> _]; constructor|].
    destruct Hex as ([[e|] qc2] & t2 & -> & Hex);
      [destruct Hex as [-> _]; repeat constructor|].
    destruct Hex as ([] & t3 & -> & Hex).
    apply IH in Hex. cbn. constructor; [reflexivity | exact Hex].
Qed.

(** The loop of [Push], when it returns nil: it made all its rounds. *)
Lemma Push_loop_rounds (n : nat) (qc : Qchan) (amt : Z) (t : list logged) :
  exec (Push_loop n qc amt) t None ->
  names t = concat (replicate n push_round) /\
  length (pushed_amounts t) = n.
Proof.
  revert qc t. induction n as [|n IH]; intros qc t Hex.
  - destruct Hex as [-> _]. split; reflexivity.
  - cbn [Push_loop] in Hex.
    destruct Hex as ([[e|] qc1] & t1 & -> & Hex);
      [destruct Hex as [_ [=]]|].
    destruct Hex as ([[e|] qc2] & t2 & -> & Hex);
      [destruct Hex as [_ [=]]|].
    destruct Hex as ([] & t3 & -> & Hex).
    apply IH in Hex. destruct Hex as [Hn Hl]. cbn.
    split; [now rewrite <- Hn | now rewrite <- Hl].
Qed.

(** The loop of [Push] looks up no channel. *)
Lemma Push_loop_no_lookup (n : nat) (qc qc' : Qchan) (amt : Z)
    (t : list logged) (r : option error) :
  exec (Push_loop n qc amt) t r -> ~ In (Some qc') (map got_qchan t).
Proof.
  revert qc t. induction n as [|n IH]; intros qc t Hex.
  - destruct Hex as [-> _]. intros [].
  - cbn [Push_loop] in Hex.
    destruct Hex as ([[e|] qc1] & t1 & -> & Hex);
      [destruct Hex as [-> _]; cbn; intros [[=] | []]|].
    destruct Hex as ([[e|] qc2] & t2 & -> & Hex);
      [destruct Hex as [-> _]; cbn; intros [[=] | [[=] | []]]|].
    destruct Hex as ([] & t3 & -> & Hex).
    apply IH in Hex. cbn. intros [[=] | [[=] | [[=] | Hin]]]. tauto.
Qed.

(** X17.  Every amount [Push] hands to [PushChannel] lies between 1 and
    100000000. *)
Theorem Push_amounts_in_range (nd : LnNode) (args : list string)
    (t : list logged) (r : option error) :
  exec (Push nd args) t r ->
  Forall (fun a => 1 <= a <= 100000000) (pushed_amounts t).
Proof.
  intros Hex. unfold Push, Push_checked in Hex.
  split_exec Hex; try (cbn; constructor).
  apply Push_loop_amounts in Hex. cbn.
  eapply Forall_impl; [exact Hex|].
  intros a ->. unfold to_uint32. rewrite Z.mod_small; lia.
Qed.

(** X18.  When [Push] returns nil it has looked up the peer and the
    channel and then made as many rounds of reload, push and sleep as its
    fourth argument says, one round when there is no fourth argument, and
    none when that argument is zero or negative. *)
Theorem Push_rounds (nd : LnNode) (args : list string) (t : list logged) :
  exec (Push nd args) t None ->
  exists times : Z,
    (if decide (3 < length args)%nat then ParseInt (arg 3 args)
     else inr 1) = inr times /\
    names t = ["GetPeerIdx"; "Printf"; "GetQchanByIdx"]%string
              ++ concat (replicate (Z.to_nat times) push_round) /\
    length (pushed_amounts t) = Z.to_nat times.
Proof.
  intros Hex. unfold Push, Push_checked in Hex.
  split_exec Hex; try discriminate.
  apply Push_loop_rounds in Hex. destruct Hex as [Hn Hl].
  eexists. split; [reflexivity|].
  unfold names, pushed_amounts in *. cbn [map concat app].
  rewrite Hn. cbn. now rewrite Hl.
Qed.

(** X19.  [Push] on a channel whose [Closed] flag is set returns the
    "is closed" error after the look-up: the channel is neither reloaded
    nor pushed. *)
Theorem Push_closed_channel_refused (nd : LnNode) (args : list string)
    (t : list logged) (r : option error) (qc : Qchan) :
  exec (Push nd args) t r ->
  In (Some qc) (map got_qchan t) ->
  Closed qc = true ->
  names t = ["GetPeerIdx"; "Printf"; "GetQchanByIdx"]%string /\
  pushed_amounts t = [] /\
  exists peerIdx64 cIdx64 : Z,
    ParseInt (arg 0 args) = inr peerIdx64 /\
    ParseInt (arg 1 args) = inr cIdx64 /\
    r = Some (Errorf "channel %d, %d is closed."
                     [ArgInt (to_uint32 peerIdx64); ArgInt cIdx64]).
Proof.
  intros Hex Hin Hclosed. unfold Push, Push_checked in Hex.
  split_exec Hex; cbn in Hin;
    repeat (destruct Hin as [Hin | Hin]; try discriminate);
    try contradiction; try (injection Hin as ->); try congruence.
  - cbn. eauto 10.
  - exfalso. eapply Push_loop_no_lookup; eassumption.
Qed.
End ShellMore.

Section ShellCloseBreak.
Context `{QlnEnv}.

(** The branch for a matching peer index, when the indices differ. *)
Ltac same_peer_absurd :=
  match goal with
  | Hn : ~ (_ <> _) |- _ =>
      exfalso; apply Hn; unfold to_uint32 in *;
      rewrite ?Z.mod_mod by lia; assumption
  end.

(** X20.  When the peer index given as first argument is not the index
    [GetPeerIdx] gives for the connected peer, [CloseChannel], [Push] and
    [Resume] return an error right after that call: no channel is looked
    up, nothing is signed, pushed or written. *)
Theorem wrong_peer_stops (nd : LnNode) (args : list string) (p cur : Z) :
  ParseInt (arg 0 args) = inr p ->
  to_uint32 p <> cur ->
  (forall t r, exec (CloseChannel nd args) t r ->
               head (map got_peer t) = Some (Some cur) ->
               names t = ["GetPeerIdx"]%string /\ r <> None) /\
  (forall t r, exec (Push nd args) t r ->
               head (map got_peer t) = Some (Some cur) ->
               names t = ["GetPeerIdx"]%string /\ r <> None) /\
  (forall t r, exec (Resume nd args) t r ->
               head (map got_peer t) = Some (Some cur) ->
               names t = ["GetPeerIdx"]%string /\ r <> None).
Proof.
  intros Hp Hne.
  split; [| split]; intros t r Hex Hin.
  - unfold CloseChannel in Hex. rewrite Hp in Hex.
    split_exec Hex; cbn in Hin; try discriminate;
      injection Hin as ->;
      first [ same_peer_absurd | split; [reflexivity | discriminate] ].
  - unfold Push, Push_checked in Hex. rewrite Hp in Hex.
    split_exec Hex; cbn in Hin; try discriminate;
      injection Hin as ->;
      first [ same_peer_absurd | split; [reflexivity | discriminate] ].
  - unfold Resume in Hex. rewrite Hp in Hex.
    split_exec Hex; cbn in Hin; try discriminate;
      injection Hin as ->;
      first [ same_peer_absurd | split; [reflexivity | discriminate] ].
Qed.

(** X21.  [CloseChannel] hands no transaction to the wallet and writes at
    most one message; it returns nil exactly when it has written one. *)
Theorem CloseChannel_writes_once (nd : LnNode) (args : list string)
    (t : list logged) (r : option error) :
  exec (CloseChannel nd args) t r ->
  broadcast t = [] /\
  (length (written t) <= 1)%nat /\
  (r = None <-> written t <> []).
Proof.
  intros Hex. unfold CloseChannel in Hex.
  split_exec Hex; cbn; repeat split; try lia; try discriminate;
    intros; try congruence; try contradiction.
Qed.

(** X22.  [BreakChannel] writes nothing to the peer connection.  The
    channel it has signed, if any, has its [Delta] at zero.  It hands at
    most one transaction to the wallet, the one [SignBreakTx] gave. *)
Theorem BreakChannel_effects (args : list string) (t : list logged)
    (r : option error) :
  exec (BreakChannel args) t r ->
  written t = [] /\
  Forall (fun qc => Delta qc = 0) (break_signed t) /\
  (broadcast t = [] \/
   exists tx, broadcast t = [tx] /\ In (Some tx) (map got_break_tx t)).
Proof.
  intros Hex. unfold BreakChannel in Hex.
  split_exec Hex; cbn; repeat split;
    try (repeat constructor; fail);
    try (left; reflexivity).
  right. eexists. split; [reflexivity|]. tauto.
Qed.
End ShellCloseBreak.

(* ===================================================================== *)
(** * Facts about the keys from the base wallet *)
(* ===================================================================== *)

Section WalletFacts.
Context {W : Type} `{UWallet W}.
Variable BaseWallet : W.
Variable UseChannelElkrem : Z.
Variable DoubleSha256SH : list byte -> list byte.

(** X23.  [GetUsePub] returns 33 bytes, and does not depend on step 2 of
    the path it is given: that step is replaced by [use] before the wallet
    is asked. *)
Theorem GetUsePub_overrides_use_step (k : KeyGen) (use x : Z) :
  GetUsePub BaseWallet (mkKeyGen (<[2%nat := x]> (Step k)) (KeyGen_rest k)) use
    = GetUsePub BaseWallet k use /\
  forall pubArr, GetUsePub BaseWallet k use = Returns pubArr ->
                 length pubArr = 33%nat.
Proof.
  split.
  - unfold GetUsePub. cbn [Step KeyGen_rest].
    now rewrite list_insert_insert_eq.
  - intros pubArr. unfold GetUsePub.
    destruct (GetPub BaseWallet _); [|discriminate].
    intros [= <-]. now rewrite length_copy.
Qed.

(** X24.  The elkrem root of a path is the double hash of the 33 bytes of
    its [UseChannelElkrem] key; two paths that differ only in step 2 have
    the same root. *)
Theorem GetElkremRoot_use_step (k : KeyGen) (x : Z) :
  GetElkremRoot BaseWallet UseChannelElkrem DoubleSha256SH
                (mkKeyGen (<[2%nat := x]> (Step k)) (KeyGen_rest k))
    = GetElkremRoot BaseWallet UseChannelElkrem DoubleSha256SH k /\
  forall root,
    GetElkremRoot BaseWallet UseChannelElkrem DoubleSha256SH k = Returns root ->
    exists pubArr,
      GetUsePub BaseWallet k UseChannelElkrem = Returns pubArr /\
      length pubArr = 33%nat /\ root = DoubleSha256SH pubArr.
Proof.
  split.
  - unfold GetElkremRoot, GetUsePub. cbn [Step KeyGen_rest].
    now rewrite list_insert_insert_eq.
  - intros root. unfold GetElkremRoot, GetUsePub.
    destruct (GetPub BaseWallet _); [|discriminate].
    intros [= <-]. eexists. split; [reflexivity|].
    split; [now rewrite length_copy | reflexivity].
Qed.
End WalletFacts.

(* ===================================================================== *)
(** * The further facts on concrete inputs *)
(* ===================================================================== *)

Lemma fresh_db_idx_wf : idx_wf Testbed.fresh_db.
Proof. intros pkh cbkt c Hcb _. unfold chan_bucket in Hcb. cbn in Hcb.
  rewrite lookup_empty in Hcb. discriminate. Qed.

Lemma db0_idx_wf : idx_wf Testbed.db0.
Proof.
  intros pkh cbkt c Hcb Hget. unfold chan_bucket in Hcb.
  destruct (decide (pkh = Testbed.pkh0)) as [-> | Hne].
  - injection Hcb as <-. injection Hget as <-. reflexivity.
  - change (cda Testbed.db0)
      with (Some (<[Testbed.pkh0 :=
                      <[KEYIdx := U32tB 0]>
                        (<[KEYElkRcv := be_bytes 8 1 ++ Testbed.h0]>
                           (<[KEYStatic := replicate 96 x11]> ∅))]>
                    (∅ : gmap (list byte) bucket))) in Hcb.
    cbv beta iota in Hcb.
    rewrite lookup_insert_ne, lookup_empty in Hcb by congruence. discriminate.
Qed.

Lemma fresh_db_pkm_dense : pkm_dense Testbed.fresh_db.
Proof.
  exists ∅. split; [reflexivity|]. split; [reflexivity|].
  intros key. split.
  - rewrite lookup_empty. intros [? ?]. discriminate.
  - intros (i & Hi & _). change (size (∅ : bucket)) with 0%nat in Hi. lia.
Qed.

Lemma AddDesc_stores_channel_witness :
  exists (mbkt : bucket) (elkBytes : list byte),
    pkm Testbed.fresh_db = Some mbkt /\
    chan_bucket Testbed.fresh_db Testbed.pkh0 = None /\
    ToBytes (snd (AddNext elkr_zero Testbed.h0)) = inr elkBytes /\
    chan_bucket Testbed.db0 Testbed.pkh0
      = Some (<[KEYIdx := U32tB (Z.of_nat (size mbkt))]>
                (<[KEYElkRcv := elkBytes]>
                   (<[KEYStatic := take 96 (replicate 128 x11)]> ∅))) /\
    pkm Testbed.db0 = Some (<[U32tB (Z.of_nat (size mbkt)) := Testbed.pkh0]> mbkt) /\
    txi Testbed.db0 = txi Testbed.fresh_db /\
    forall pkh : list byte,
      pkh <> Testbed.pkh0 ->
      chan_bucket Testbed.db0 pkh = chan_bucket Testbed.fresh_db pkh.
Proof.
  apply (AddDesc_stores_channel Testbed.sd0 Testbed.fresh_db Testbed.db0).
  reflexivity.
Defined.

Lemma AddDesc_twice_refused_witness :
  AddDesc (R:=Testbed.chain) Testbed.sd0 Testbed.db0
  = (Returns (Some ErrBucketExists), Testbed.db0).
Proof.
  apply (AddDesc_twice_refused Testbed.sd0 Testbed.sd0 Testbed.fresh_db);
    reflexivity.
Defined.

Lemma AddDesc_keeps_idx_wf_witness : idx_wf Testbed.db0.
Proof.
  apply (AddDesc_keeps_idx_wf (R:=Testbed.chain) Testbed.sd0 Testbed.fresh_db).
  exact fresh_db_idx_wf.
Defined.

Lemma AddMsg_keeps_idx_wf_witness : idx_wf Testbed.dbA.
Proof.
  apply (AddMsg_keeps_idx_wf (R:=Testbed.chain) Testbed.smA Testbed.db0).
  exact db0_idx_wf.
Defined.

Lemma AddMsg_frame_witness :
  exists (cbkt cbkt' : bucket) (elkr elkr' : Testbed.chain)
         (elkBytes : list byte),
    chan_bucket Testbed.db0 Testbed.pkh0 = Some cbkt /\
    chan_bucket Testbed.dbA Testbed.pkh0 = Some cbkt' /\
    ElkremReceiverFromBytes (Get cbkt KEYElkRcv) = inr elkr /\
    AddNext elkr Testbed.h1 = (None, elkr') /\
    ToBytes elkr' = inr elkBytes /\
    Get cbkt' KEYElkRcv = Some elkBytes /\
    (forall key, key <> KEYElkRcv -> Get cbkt' key = Get cbkt key) /\
    pkm Testbed.dbA = pkm Testbed.db0 /\
    (forall pkh, pkh <> Testbed.pkh0 ->
                 chan_bucket Testbed.dbA pkh = chan_bucket Testbed.db0 pkh) /\
    (forall key, key <> take 8 Testbed.txidA ->
                 txid_record Testbed.dbA key = txid_record Testbed.db0 key).
Proof.
  apply (AddMsg_frame Testbed.smA Testbed.db0 Testbed.dbA). reflexivity.
Defined.

Lemma AddMsg_no_index_rolls_back_witness :
  chan_bucket (snd (AddMsg_tx (R:=Testbed.chain) Testbed.smA Cases.db_noidx))
              Testbed.pkh0
    = Some (<[KEYElkRcv := be_bytes 8 2 ++ Testbed.h1]>
              {[ KEYElkRcv := be_bytes 8 1 ++ Testbed.h0 ]}) /\
  AddMsg (R:=Testbed.chain) Testbed.smA Cases.db_noidx
    = (Returns (Some (Errorf "channel %x has no index"
                             [ArgBytes Testbed.pkh0])), Cases.db_noidx).
Proof.
  apply (AddMsg_no_index_rolls_back Testbed.smA Cases.db_noidx
           {[ KEYElkRcv := be_bytes 8 1 ++ Testbed.h0 ]}
           (Testbed.mkChain 1 Testbed.h0) (Testbed.mkChain 2 Testbed.h1)
           (be_bytes 8 2 ++ Testbed.h1));
    try reflexivity.
  unfold MaxValueSize. simpl. lia.
Defined.

Lemma AddMsg_unknown_channel_witness :
  AddMsg (R:=Testbed.chain) Testbed.smA Testbed.fresh_db
    = (Returns (Some (Errorf "no bucket for channel %x"
                             [ArgBytes Testbed.pkh0])), Testbed.fresh_db).
Proof.
  apply (AddMsg_unknown_channel Testbed.smA Testbed.fresh_db ∅); reflexivity.
Defined.

Lemma CheckTxids_hits_witness :
  CheckTxids 32 [Cases.txidD; Testbed.txidA; Cases.txidC; Cases.txidD;
                 Testbed.txidA] Testbed.dbA
  = (Returns ([hit_of 32 Testbed.txidA; hit_of 32 Cases.txidC;
               hit_of 32 Testbed.txidA], None), Testbed.dbA).
Proof.
  rewrite (CheckTxids_hits 32 _ Testbed.dbA
             {[ take 8 Testbed.txidA
                := be_bytes 4 0 ++ be_bytes 6 1 ++ Testbed.sigA ]})
    by reflexivity.
  reflexivity.
Defined.

Lemma CheckTxids_no_bucket_witness :
  CheckTxids 32 [Testbed.txidA] Cases.db_notxi = (Panics, Cases.db_notxi) /\
  CheckTxids 32 [] Cases.db_notxi = (Returns ([], None), Cases.db_notxi).
Proof.
  split.
  - apply (CheckTxids_no_bucket 32 [Testbed.txidA] Cases.db_notxi). reflexivity.
  - apply (CheckTxids_no_bucket 32 [] Cases.db_notxi). reflexivity.
Defined.

(** [txidC] was never stored; it starts like [txidA] and is reported. *)
Lemma AddMsg_then_CheckTxids_witness :
  CheckTxids 32 [Cases.txidC] Testbed.dbA
  = (Returns ([hit_of 32 Cases.txidC], None), Testbed.dbA).
Proof.
  apply (AddMsg_then_CheckTxids (R:=Testbed.chain) 32 Testbed.smA Testbed.db0);
    reflexivity.
Defined.

Lemma AddMsg_state_number_witness :
  exists (cbkt : bucket) (elkr elkr' : Testbed.chain) (rec : list byte),
    chan_bucket Testbed.db0 Testbed.pkh0 = Some cbkt /\
    ElkremReceiverFromBytes (Get cbkt KEYElkRcv) = inr elkr /\
    AddNext elkr Testbed.h1 = (None, elkr') /\
    txid_record Testbed.dbA (take 8 Testbed.txidA) = Some rec /\
    be_value (take 6 (drop 4 rec)) = UpTo elkr' mod 2 ^ 48.
Proof.
  apply (AddMsg_state_number Testbed.smA Testbed.db0 Testbed.dbA); reflexivity.
Defined.

Lemma AddDesc_fresh_index_witness :
  (∅ : bucket) !! U32tB (Z.of_nat (size (∅ : bucket))) = None /\
  (exists mbkt' : bucket,
     pkm Testbed.db0 = Some mbkt' /\ size mbkt' = S (size (∅ : bucket)) /\
     mbkt' !! U32tB (Z.of_nat (size (∅ : bucket))) = Some Testbed.pkh0 /\
     forall key v, (∅ : bucket) !! key = Some v -> mbkt' !! key = Some v) /\
  (Z.of_nat (size (∅ : bucket)) + 1 < 2 ^ 32 -> pkm_dense Testbed.db0).
Proof.
  apply (AddDesc_fresh_index (R:=Testbed.chain) Testbed.sd0 Testbed.fresh_db
           Testbed.db0 ∅); [exact fresh_db_pkm_dense | reflexivity | reflexivity].
Defined.

Lemma not_connected_no_calls_witness :
  (exists e, FundChannel Cases.nd_off ["1000000"; "0"]%string
             = Ret (Some e, Cases.nd_off)) /\
  (exists e, Resume Cases.nd_off ["1000000"; "0"]%string = Ret (Some e)) /\
  (exists e, Push Cases.nd_off ["1000000"; "0"]%string = Ret (Some e)) /\
  (exists e, CloseChannel Cases.nd_off ["1000000"; "0"]%string = Ret (Some e)).
Proof.
  apply (not_connected_no_calls Cases.nd_off ["1000000"; "0"]%string).
  reflexivity.
Defined.

Lemma FundChannel_in_progress_refused_witness :
  exists e, FundChannel Cases.nd_busy ["1000000"; "0"]%string
            = Ret (Some e, Cases.nd_busy).
Proof.
  apply (FundChannel_in_progress_refused Cases.nd_busy).
  simpl. lia.
Defined.

(** The write of POINTREQ fails: the error comes back, [InProg] is set. *)
Lemma FundChannel_sends_pointreq_witness :
  exists cCap iSend peerIdx cIdx : Z,
    ParseInt (arg 0 ["1000000"; "3"]%string) = inr cCap /\
    ParseInt (arg 1 ["1000000"; "3"]%string) = inr iSend /\
    1000000 <= cCap < 2 ^ 31 /\ 0 <= iSend <= cCap /\
    picked_amounts
      (snd (run (Testbed.answer (Some Testbed.ErrBrokenPipe))
                (FundChannel Testbed.nd0 ["1000000"; "3"]%string) []))
      = [cCap] /\
    In (Some (peerIdx, cIdx))
       (map got_next_idx
            (snd (run (Testbed.answer (Some Testbed.ErrBrokenPipe))
                      (FundChannel Testbed.nd0 ["1000000"; "3"]%string) []))) /\
    written
      (snd (run (Testbed.answer (Some Testbed.ErrBrokenPipe))
                (FundChannel Testbed.nd0 ["1000000"; "3"]%string) []))
      = [[MSGID_POINTREQ]] /\
    In (Some (Some Testbed.ErrBrokenPipe))
       (map write_result
            (snd (run (Testbed.answer (Some Testbed.ErrBrokenPipe))
                      (FundChannel Testbed.nd0 ["1000000"; "3"]%string) []))) /\
    mkLnNode (RemoteCon Testbed.nd0) (mkInFlightFund 7 3 1000000 3)
      = mkLnNode (RemoteCon Testbed.nd0)
                 (mkInFlightFund peerIdx cIdx cCap iSend).
Proof.
  apply (FundChannel_sends_pointreq Testbed.nd0
           (mkLnNode (RemoteCon Testbed.nd0) (mkInFlightFund 7 3 1000000 3))
           ["1000000"; "3"]%string
           (snd (run (Testbed.answer (Some Testbed.ErrBrokenPipe))
                     (FundChannel Testbed.nd0 ["1000000"; "3"]%string) []))
           (Some Testbed.ErrBrokenPipe)).
  - exact (run_exec_nil (Testbed.answer (Some Testbed.ErrBrokenPipe))
             (FundChannel Testbed.nd0 ["1000000"; "3"]%string)).
  - cbn. discriminate.
Defined.

Lemma Push_amounts_in_range_witness :
  Forall (fun a => 1 <= a <= 100000000)
         (pushed_amounts
            (snd (run (Cases.answer_open None)
                      (Push Testbed.nd0 ["7"; "3"; "100"; "2"]%string) []))).
Proof.
  apply (Push_amounts_in_range Testbed.nd0 ["7"; "3"; "100"; "2"]%string _
           (fst (run (Cases.answer_open None)
                     (Push Testbed.nd0 ["7"; "3"; "100"; "2"]%string) []))).
  apply run_exec_nil.
Defined.

(** [push 7 3 100 0] returns nil and pushes nothing. *)
Lemma Push_rounds_witness :
  exists times : Z,
    (if decide (3 < length ["7"; "3"; "100"; "0"]%string)%nat
     then ParseInt (arg 3 ["7"; "3"; "100"; "0"]%string)
     else inr 1) = inr times /\
    names (snd (run (Cases.answer_open None)
                    (Push Testbed.nd0 ["7"; "3"; "100"; "0"]%string) []))
      = ["GetPeerIdx"; "Printf"; "GetQchanByIdx"]%string
        ++ concat (replicate (Z.to_nat times) push_round) /\
    length (pushed_amounts
              (snd (run (Cases.answer_open None)
                        (Push Testbed.nd0 ["7"; "3"; "100"; "0"]%string) [])))
      = Z.to_nat times.
Proof.
  apply (Push_rounds Testbed.nd0 ["7"; "3"; "100"; "0"]%string).
  exact (run_exec_nil (Cases.answer_open None)
           (Push Testbed.nd0 ["7"; "3"; "100"; "0"]%string)).
Defined.

Lemma Push_closed_channel_refused_witness :
  names (snd (run (Testbed.answer None)
                  (Push Testbed.nd0 ["7"; "3"; "100"]%string) []))
    = ["GetPeerIdx"; "Printf"; "GetQchanByIdx"]%string /\
  pushed_amounts (snd (run (Testbed.answer None)
                           (Push Testbed.nd0 ["7"; "3"; "100"]%string) []))
    = [] /\
  exists peerIdx64 cIdx64 : Z,
    ParseInt (arg 0 ["7"; "3"; "100"]%string) = inr peerIdx64 /\
    ParseInt (arg 1 ["7"; "3"; "100"]%string) = inr cIdx64 /\
    fst (run (Testbed.answer None)
             (Push Testbed.nd0 ["7"; "3"; "100"]%string) [])
      = Some (Errorf "channel %d, %d is closed."
                     [ArgInt (to_uint32 peerIdx64); ArgInt cIdx64]).
Proof.
  apply (Push_closed_channel_refused Testbed.nd0 ["7"; "3"; "100"]%string
           _ _ Testbed.qc_closed).
  - apply run_exec_nil.
  - cbn. do 2 right. left. reflexivity.
  - reflexivity.
Defined.

(** The connected peer has index 7; the command names peer 8. *)
Lemma wrong_peer_stops_witness :
  names (snd (run (Testbed.answer None)
                  (CloseChannel Testbed.nd0 ["8"; "3"; "5"]%string) []))
    = ["GetPeerIdx"]%string /\
  names (snd (run (Testbed.answer None)
                  (Push Testbed.nd0 ["8"; "3"; "5"]%string) []))
    = ["GetPeerIdx"]%string /\
  names (snd (run (Testbed.answer None)
                  (Resume Testbed.nd0 ["8"; "3"; "5"]%string) []))
    = ["GetPeerIdx"]%string.
Proof.
  destruct (wrong_peer_stops Testbed.nd0 ["8"; "3"; "5"]%string 8 7)
    as (Hc & Hp & Hr); [reflexivity | cbv; discriminate |].
  split; [| split].
  - apply (Hc _ _ (run_exec_nil _ _)). reflexivity.
  - apply (Hp _ _ (run_exec_nil _ _)). reflexivity.
  - apply (Hr _ _ (run_exec_nil _ _)). reflexivity.
Defined.

Lemma CloseChannel_writes_once_witness :
  broadcast (snd (run (Testbed.answer None)
                      (CloseChannel Testbed.nd0 ["7"; "3"]%string) [])) = [] /\
  (length (written (snd (run (Testbed.answer None)
                             (CloseChannel Testbed.nd0 ["7"; "3"]%string) [])))
   <= 1)%nat /\
  (fst (run (Testbed.answer None)
            (CloseChannel Testbed.nd0 ["7"; "3"]%string) []) = None <->
   written (snd (run (Testbed.answer None)
                     (CloseChannel Testbed.nd0 ["7"; "3"]%string) [])) <> []).
Proof.
  apply (CloseChannel_writes_once Testbed.nd0 ["7"; "3"]%string).
  apply run_exec_nil.
Defined.

Lemma BreakChannel_effects_witness :
  written (snd (run (Cases.answer_open None)
                    (BreakChannel ["7"; "3"]%string) [])) = [] /\
  Forall (fun qc => Delta qc = 0)
         (break_signed (snd (run (Cases.answer_open None)
                                 (BreakChannel ["7"; "3"]%string) []))) /\
  (broadcast (snd (run (Cases.answer_open None)
                       (BreakChannel ["7"; "3"]%string) [])) = [] \/
   exists tx,
     broadcast (snd (run (Cases.answer_open None)
                         (BreakChannel ["7"; "3"]%string) [])) = [tx] /\
     In (Some tx)
        (map got_break_tx
             (snd (run (Cases.answer_open None)
                       (BreakChannel ["7"; "3"]%string) [])))).
Proof.
  apply (BreakChannel_effects ["7"; "3"]%string _
           (fst (run (Cases.answer_open None)
                     (BreakChannel ["7"; "3"]%string) []))).
  apply run_exec_nil.
Defined.
